(** * editOnBeforeInput: routing of native beforeinput events

    A shallow embedding of [src/component/handlers/edit/editOnBeforeInput.js]
    of draft-js.  The handler is stateful JavaScript: it mutates the editor
    component, calls [preventDefault] on the event, queues a [setImmediate]
    callback and may throw (through [nullthrows]).  It is embedded in a small
    state monad with JavaScript completions (normal, [return], [throw]) over a
    world that holds the editor object, the DOM selection, the queue of
    immediate callbacks and the trace of the calls the handler made.

    The immutable document model ([EditorState], [ContentState],
    [SelectionState], [DraftModifier], [BlockTree], ...) is not part of this
    file of the repository: it is an interface, [DraftModel], whose
    operations the handler calls. *)

From Stdlib Require Import ZArith Ascii.
From stdpp Require Import base strings list gmap.

(** ** The DOM pieces the handler reads *)

Module Node.
(** [Node.TEXT_NODE] and [Node.ELEMENT_NODE] *)
Definition TEXT_NODE : Z := 3.
Definition ELEMENT_NODE : Z := 1.
End Node.

(** A DOM node, with the three properties the handler reads.  [nodeValue] is
    [null] on element nodes; the handler reads it only behind a
    [nodeType === Node.TEXT_NODE] test, so the model keeps a string. *)
Record DomNode := {
  nodeType : Z;
  nodeName : string;
  nodeValue : string
}.

(** The parent of the anchor node, with its [firstChild]. *)
Record DomParent := {
  parentSelf : DomNode;
  firstChild : DomNode
}.

(** The anchor node of the native selection, with its [parentNode]. *)
Record DomAnchor := {
  anchorSelf : DomNode;
  parentNode : DomParent
}.

(** What [global.getSelection()] returns; [anchorNode] may be [null]. *)
Record NativeSelection := {
  anchorNode : option DomAnchor
}.

(** [SyntheticInputEvent]: [e.data] may be [null] or [undefined]. *)
Record SyntheticInputEvent := {
  data : option string
}.

(** ** JavaScript string helpers *)

(** [s.indexOf(needle)], [-1] when absent. *)
Definition indexOf (needle s : string) : Z :=
  match String.index 0 needle s with
  | Some i => Z.of_nat i
  | None => (-1)%Z
  end.

(** [s.slice(start, end)] for non-negative integer arguments. *)
Definition slice (s : string) (start end_ : nat) : string :=
  String.substring start (end_ - start) s.

(** The tab character, ['\t']. *)
Definition TAB : string := String (Ascii.ascii_of_nat 9) EmptyString.

(** ** The document model the handler is written against *)

Class DraftModel := {
  EditorState : Type;
  ContentState : Type;
  SelectionState : Type;
  DraftInlineStyle : Type;
  BlockTreeList : Type;
  DraftHandleValue : Type;
  (* EditorState *)
  getCurrentContent : EditorState -> ContentState;
  getSelection : EditorState -> SelectionState;
  getCurrentInlineStyle : EditorState -> DraftInlineStyle;
  getBlockTree : EditorState -> string -> BlockTreeList;
  getDirectionMap : EditorState -> option (gmap string string);
  EditorState_push : EditorState -> ContentState -> string -> EditorState;
  EditorState_forceSelection : EditorState -> SelectionState -> EditorState;
  EditorState_set : EditorState -> list (string * ContentState) -> EditorState;
  (* ContentState *)
  getPlainText : ContentState -> string;
  (* SelectionState *)
  getStartOffset : SelectionState -> nat;
  getEndOffset : SelectionState -> nat;
  getAnchorKey : SelectionState -> string;
  isCollapsed : SelectionState -> bool;
  SelectionState_merge : SelectionState -> list (string * nat) -> SelectionState;
  (* required modules *)
  DraftModifier_replaceText :
    ContentState -> SelectionState -> string -> DraftInlineStyle ->
    option string -> ContentState;
  BlockTree_getFingerprint : BlockTreeList -> string;
  getEntityKeyForSelection : ContentState -> SelectionState -> option string;
  isEventHandled : DraftHandleValue -> bool;
  isSelectionAtLeafStart : EditorState -> bool;
  UserAgent_isBrowser : string -> bool
}.

(** ** JavaScript completions

    How a statement ends: normally with a value, by [return], or by a
    thrown error. *)
Inductive Completion (A : Type) :=
| Normal (a : A)
| Returned
| Thrown (err : string).
Arguments Normal {A} a.
Arguments Returned {A}.
Arguments Thrown {A} err.

Section Handler.
Context {DM : DraftModel}.

(** ** The editor component *)

Record Props := {
  handleBeforeInput : option (string -> EditorState -> DraftHandleValue)
}.

Record DraftEditor := {
  _pendingStateFromBeforeInput : option EditorState;
  _latestEditorState : EditorState;
  _latestCommittedEditorState : EditorState;
  props : Props
}.

(** [editor.update] belongs to the component: it hands the state to the
    component's [onChange] and may change any field of the editor. *)
Class DraftEditorMethods := {
  update : DraftEditor -> EditorState -> DraftEditor
}.
Context {EM : DraftEditorMethods}.

Definition set_pendingStateFromBeforeInput
    (v : option EditorState) (ed : DraftEditor) : DraftEditor :=
  {| _pendingStateFromBeforeInput := v;
     _latestEditorState := _latestEditorState ed;
     _latestCommittedEditorState := _latestCommittedEditorState ed;
     props := props ed |}.

(** ** Trace and world *)

(** The heuristics that gate native insertion, by the test in the source. *)
Inductive Heuristic :=
| SelectionCollapsed   (* selection.isCollapsed() *)
| LeafStart            (* isSelectionAtLeafStart *)
| TabInSpan            (* the Chrome tab SPAN test *)
| FingerprintChanged   (* BlockTree.getFingerprint, old against new *)
| FirefoxQuickfind     (* mustPreventDefaultForCharacter *)
| DirectionChanged.    (* getDirectionMap, new against old *)

(** The callbacks the handler hands to [setImmediate]; there is one, the
    closure of lines 226-231, which closes over the editor only. *)
Inductive Callback := ApplyPendingState.

(** What the handler does, in order: its calls on the event and on the
    editor, its calls of the prop and of [replaceText], and the heuristics
    it evaluates, each with its verdict ([true]: native insertion must be
    prevented). *)
Inductive Effect :=
| PreventDefault                       (* e.preventDefault() *)
| Update (s : EditorState)             (* editor.update(s) *)
| CallHandleBeforeInput (chars : string) (s : EditorState)
                                       (* editor.props.handleBeforeInput(chars, s) *)
| CallReplaceText (chars : string) (s : EditorState)
                                       (* replaceText(s, chars, ...) *)
| Evaluated (h : Heuristic) (prevents : bool).

Record World := {
  editor : DraftEditor;
  nativeSelection : NativeSelection;   (* global.getSelection() *)
  immediates : list Callback;          (* queued by setImmediate *)
  trace : list Effect
}.

(** ** Statements *)

Definition Js (A : Type) : Type := World -> Completion A * World.

#[export] Instance Js_ret : MRet Js := fun A a w => (Normal a, w).
#[export] Instance Js_bind : MBind Js := fun A B f m w =>
  match m w with
  | (Normal a, w') => f a w'
  | (Returned, w') => (Returned, w')
  | (Thrown err, w') => (Thrown err, w')
  end.

(** [return;] *)
Definition return_ {A} : Js A := fun w => (Returned, w).
(** [throw new Error(err)] *)
Definition throw {A} (err : string) : Js A := fun w => (Thrown err, w).
(** [if (c) { body }] *)
Definition when_ (c : bool) (body : Js unit) : Js unit :=
  if c then body else mret tt.
(** The body of a function: a [return] ends the function, not the caller. *)
Definition function (body : Js unit) : Js unit := fun w =>
  match body w with
  | (Returned, w') => (Normal tt, w')
  | r => r
  end.

(** World updates. *)
Definition addTrace (evs : list Effect) (w : World) : World :=
  {| editor := editor w; nativeSelection := nativeSelection w;
     immediates := immediates w; trace := trace w ++ evs |}.
Definition withEditor (f : DraftEditor -> DraftEditor) (w : World) : World :=
  {| editor := f (editor w); nativeSelection := nativeSelection w;
     immediates := immediates w; trace := trace w |}.
Definition enqueue (cb : Callback) (w : World) : World :=
  {| editor := editor w; nativeSelection := nativeSelection w;
     immediates := immediates w ++ [cb]; trace := trace w |}.

Definition tell (ev : Effect) : Js unit := fun w =>
  (Normal tt, addTrace [ev] w).

Definition getEditor : Js DraftEditor := fun w => (Normal (editor w), w).

Definition modifyEditor (f : DraftEditor -> DraftEditor) : Js unit := fun w =>
  (Normal tt, withEditor f w).

(** [global.getSelection()] *)
Definition global_getSelection : Js NativeSelection := fun w =>
  (Normal (nativeSelection w), w).

(** [setImmediate(cb)] *)
Definition setImmediate (cb : Callback) : Js unit := fun w =>
  (Normal tt, enqueue cb w).

(** [e.preventDefault()] *)
Definition preventDefault : Js unit := tell PreventDefault.

(** [editor.update(s)] *)
Definition editor_update (s : EditorState) : Js unit :=
  tell (Update s) ;; modifyEditor (fun ed => update ed s).

(** [nullthrows(x)] *)
Definition nullthrows {A} (x : option A) : Js A :=
  match x with
  | Some a => mret a
  | None => throw "Got unexpected null or undefined"
  end.

(** ** The source, function by function *)

Definition FF_QUICKFIND_CHAR : string := "'".
Definition FF_QUICKFIND_LINK_CHAR : string := "/".
Definition isFirefox : bool := UserAgent_isBrowser "Firefox".

Definition mustPreventDefaultForCharacter (character : string) : bool :=
  isFirefox &&
  (bool_decide (character = FF_QUICKFIND_CHAR)
   || bool_decide (character = FF_QUICKFIND_LINK_CHAR)).

Definition replaceText (editorState : EditorState) (text : string)
    (inlineStyle : DraftInlineStyle) (entityKey : option string) : EditorState :=
  let contentState :=
    DraftModifier_replaceText
      (getCurrentContent editorState)
      (getSelection editorState)
      text inlineStyle entityKey in
  EditorState_push editorState contentState "insert-characters".

(** Lines 81-84, and again lines 227-230 inside the callback. *)
Definition applyPendingState : Js unit :=
  ed ← getEditor;
  match _pendingStateFromBeforeInput ed with
  | Some pending =>
      editor_update pending ;;
      modifyEditor (set_pendingStateFromBeforeInput None)
  | None => mret tt
  end.

(** Lines 178-188: the test whether Chrome would split a tab SPAN. *)
Definition tabInSpan (nativeSelection : NativeSelection) : bool :=
  match anchorNode nativeSelection with
  | Some anchor =>
      if bool_decide (nodeType (anchorSelf anchor) = Node.TEXT_NODE) then
        let parentNode := parentNode anchor in
        bool_decide (nodeName (parentSelf parentNode) = "SPAN")
        && bool_decide (nodeType (firstChild parentNode) = Node.TEXT_NODE)
        && negb (bool_decide
                   (indexOf TAB (nodeValue (firstChild parentNode)) = (-1)%Z))
      else false
  | None => false
  end.

Definition editOnBeforeInput (e : SyntheticInputEvent) : Js unit :=
  function (
    applyPendingState ;;
    editor0 ← getEditor;
    let editorState := _latestEditorState editor0 in
    match data e with
    | None | Some "" => return_
    | Some chars =>
      handled ← match handleBeforeInput (props editor0) with
                | Some handler =>
                    tell (CallHandleBeforeInput chars editorState) ;;
                    mret (isEventHandled (handler chars editorState))
                | None => mret false
                end;
      when_ handled (preventDefault ;; return_) ;;
      let selection := getSelection editorState in
      let selectionStart := getStartOffset selection in
      let selectionEnd := getEndOffset selection in
      let anchorKey := getAnchorKey selection in
      tell (Evaluated SelectionCollapsed (negb (isCollapsed selection))) ;;
      when_ (negb (isCollapsed selection)) (
        preventDefault ;;
        let currentlySelectedChars :=
          slice (getPlainText (getCurrentContent editorState))
                selectionStart selectionEnd in
        (if bool_decide (chars = currentlySelectedChars) then
           editor_update
             (EditorState_forceSelection editorState
                (SelectionState_merge selection
                   [("anchorOffset", selectionEnd);
                    ("focusOffset", selectionEnd)]))
         else
           tell (CallReplaceText chars editorState) ;;
           editor_update
             (replaceText editorState chars
                (getCurrentInlineStyle editorState)
                (getEntityKeyForSelection
                   (getCurrentContent editorState)
                   (getSelection editorState)))) ;;
        return_) ;;
      tell (CallReplaceText chars editorState) ;;
      let newEditorState :=
        replaceText editorState chars
          (getCurrentInlineStyle editorState)
          (getEntityKeyForSelection
             (getCurrentContent editorState)
             (getSelection editorState)) in
      let mustPreventNative := false in
      mustPreventNative ←
        (if negb mustPreventNative then
           editor1 ← getEditor;
           let r := isSelectionAtLeafStart (_latestCommittedEditorState editor1) in
           tell (Evaluated LeafStart r) ;; mret r
         else mret mustPreventNative);
      mustPreventNative ←
        (if negb mustPreventNative then
           nativeSelection ← global_getSelection;
           let r := tabInSpan nativeSelection in
           tell (Evaluated TabInSpan r) ;; mret r
         else mret mustPreventNative);
      mustPreventNative ←
        (if negb mustPreventNative then
           let originalFingerprint :=
             BlockTree_getFingerprint (getBlockTree editorState anchorKey) in
           let newFingerprint :=
             BlockTree_getFingerprint (getBlockTree newEditorState anchorKey) in
           let r := negb (bool_decide (originalFingerprint = newFingerprint)) in
           tell (Evaluated FingerprintChanged r) ;; mret r
         else mret mustPreventNative);
      mustPreventNative ←
        (if negb mustPreventNative then
           let r := mustPreventDefaultForCharacter chars in
           tell (Evaluated FirefoxQuickfind r) ;; mret r
         else mret mustPreventNative);
      mustPreventNative ←
        (if negb mustPreventNative then
           newMap ← nullthrows (getDirectionMap newEditorState);
           oldMap ← nullthrows (getDirectionMap editorState);
           let r := negb (bool_decide (newMap !! anchorKey = oldMap !! anchorKey)) in
           tell (Evaluated DirectionChanged r) ;; mret r
         else mret mustPreventNative);
      when_ mustPreventNative (
        preventDefault ;;
        editor_update newEditorState ;;
        return_) ;;
      let newEditorState :=
        EditorState_set newEditorState
          [("nativelyRenderedContent", getCurrentContent newEditorState)] in
      modifyEditor (set_pendingStateFromBeforeInput (Some newEditorState)) ;;
      setImmediate ApplyPendingState
    end).

(** Running a queued callback. *)
Definition runCallback (cb : Callback) : Js unit :=
  match cb with
  | ApplyPendingState => function applyPendingState
  end.

(** ** Vocabulary of the statements *)

(** The world a statement leaves, and how it completes. *)
Definition run (m : Js unit) (w : World) : World := (m w).2.
Definition outcome (m : Js unit) (w : World) : Completion unit := (m w).1.

(** The world once the handler has flushed, at entry, the state a previous
    invocation left pending (lines 81-84). *)
Definition afterEntryFlush (w : World) : World := run applyPendingState w.

(** The effects a run added to the trace of [w0]. *)
Definition effectsSince (w0 w1 : World) : list Effect :=
  drop (length (trace w0)) (trace w1).

(** The editor state the handler works on (line 86). *)
Definition currentState (w : World) : EditorState :=
  _latestEditorState (editor (afterEntryFlush w)).

(** [editor.props.handleBeforeInput && isEventHandled(...)] (lines 102-103). *)
Definition handledByProp (ed : DraftEditor) (chars : string)
    (es : EditorState) : bool :=
  match handleBeforeInput (props ed) with
  | Some handler => isEventHandled (handler chars es)
  | None => false
  end.

(** The call of the prop, when the editor has one (line 103). *)
Definition propCall (ed : DraftEditor) (chars : string)
    (es : EditorState) : list Effect :=
  match handleBeforeInput (props ed) with
  | Some _ => [CallHandleBeforeInput chars es]
  | None => []
  end.

(** The selection of lines 131-134. *)
Definition collapsedToEnd (sel : SelectionState) : SelectionState :=
  SelectionState_merge sel
    [("anchorOffset", getEndOffset sel); ("focusOffset", getEndOffset sel)].

(** The replacement state of lines 139-147 and 153-161. *)
Definition insertedState (es : EditorState) (chars : string) : EditorState :=
  replaceText es chars (getCurrentInlineStyle es)
    (getEntityKeyForSelection (getCurrentContent es) (getSelection es)).

(** [currentlySelectedChars] (lines 123-126). *)
Definition selectedChars (es : EditorState) : string :=
  slice (getPlainText (getCurrentContent es))
        (getStartOffset (getSelection es)) (getEndOffset (getSelection es)).

(** The state the handler passes to [editor.update] when the selection is
    not collapsed (lines 127-149). *)
Definition rerenderedState (es : EditorState) (chars : string) : EditorState :=
  if bool_decide (chars = selectedChars es)
  then EditorState_forceSelection es (collapsedToEnd (getSelection es))
  else insertedState es chars.

(** The handler seen from one event: the editor it works on, whether the
    prop handles the event, the state after the insertion, the block the
    caret is in, and the effects it adds after the entry flush. *)
Definition flushedEditor (w : World) : DraftEditor :=
  editor (afterEntryFlush w).
Definition handled (w : World) (chars : string) : bool :=
  handledByProp (flushedEditor w) chars (currentState w).
Definition nextState (w : World) (chars : string) : EditorState :=
  insertedState (currentState w) chars.
Definition anchorBlock (w : World) : string :=
  getAnchorKey (getSelection (currentState w)).
Definition effects (e : SyntheticInputEvent) (w : World) : list Effect :=
  effectsSince (afterEntryFlush w) (run (editOnBeforeInput e) w).

(** The value of the variable [mustPreventNative] when line 211 is reached
    from a collapsed selection, [None] when [nullthrows] threw before. *)
Definition mustPreventNative (w : World) (chars : string) : option bool :=
  if isSelectionAtLeafStart (_latestCommittedEditorState (flushedEditor w))
  then Some true
  else if tabInSpan (nativeSelection w) then Some true
  else if negb (bool_decide
                  (BlockTree_getFingerprint
                     (getBlockTree (currentState w) (anchorBlock w))
                   = BlockTree_getFingerprint
                       (getBlockTree (nextState w chars) (anchorBlock w))))
  then Some true
  else if mustPreventDefaultForCharacter chars then Some true
  else
    match getDirectionMap (nextState w chars),
          getDirectionMap (currentState w) with
    | Some newMap, Some oldMap =>
        Some (negb (bool_decide
                      (newMap !! anchorBlock w = oldMap !! anchorBlock w)))
    | _, _ => None
    end.

(** An entry of the trace that records the verdict of a heuristic. *)
Definition isCheck (ev : Effect) : Prop :=
  match ev with
  | Evaluated _ _ => True
  | _ => False
  end.

Definition callsPreventDefault (evs : list Effect) : Prop :=
  PreventDefault ∈ evs.
Definition updatesEditor (evs : list Effect) : Prop :=
  exists s, Update s ∈ evs.
(** The browser inserts the character itself: the default action was not
    prevented and the handler did not re-render from the model. *)
Definition allowsNativeInsertion (evs : list Effect) : Prop :=
  ~ callsPreventDefault evs /\ ~ updatesEditor evs.

(** The heuristics, in the words of the specification. *)
Definition containsTab (s : string) : Prop :=
  exists i, String.get i s = Some (Ascii.ascii_of_nat 9).

Definition atLeafStart (ed : DraftEditor) : Prop :=
  isSelectionAtLeafStart (_latestCommittedEditorState ed) = true.

Definition tabInSpanNode (sel : NativeSelection) : Prop :=
  exists anchor,
    anchorNode sel = Some anchor
    /\ nodeType (anchorSelf anchor) = Node.TEXT_NODE
    /\ nodeName (parentSelf (parentNode anchor)) = "SPAN"
    /\ nodeType (firstChild (parentNode anchor)) = Node.TEXT_NODE
    /\ containsTab (nodeValue (firstChild (parentNode anchor))).

Definition fingerprintChanged (es newEs : EditorState) (key : string) : Prop :=
  BlockTree_getFingerprint (getBlockTree es key)
  <> BlockTree_getFingerprint (getBlockTree newEs key).

Definition firefoxQuickfindChar (chars : string) : Prop :=
  isFirefox = true /\ (chars = "'" \/ chars = "/").

Definition directionChanged (oldMap newMap : gmap string string)
    (key : string) : Prop :=
  newMap !! key <> oldMap !! key.

(** The state left pending on the native path (lines 218-220). *)
Definition nativelyRendered (es : EditorState) : EditorState :=
  EditorState_set es [("nativelyRenderedContent", getCurrentContent es)].

(** The world once the pending state [pending] has been applied: handed to
    [editor.update], and the field reset to [undefined]. *)
Definition applied (pending : EditorState) (w : World) : World :=
  {| editor := set_pendingStateFromBeforeInput None (update (editor w) pending);
     nativeSelection := nativeSelection w;
     immediates := immediates w;
     trace := trace w ++ [Update pending] |}.

(** An effect that is neither [preventDefault] nor [editor.update]. *)
Definition quiet (ev : Effect) : Prop :=
  ev <> PreventDefault /\ forall s, ev <> Update s.


(** The heuristics a run evaluated, in order, each with its verdict. *)
Definition evaluated (evs : list Effect) : list (Heuristic * bool) :=
  omap (fun ev => match ev with
                  | Evaluated h b => Some (h, b)
                  | _ => None
                  end) evs.

(** [checks] follows [order]: it evaluates an initial segment of [order], in
    that order, and every check but the last one left insertion allowed. *)
Definition evaluatedInOrder (order : list Heuristic)
    (checks : list (Heuristic * bool)) : Prop :=
  checks.*1 = take (length checks) order
  /\ forall i hb, checks !! i = Some hb -> S i < length checks -> hb.2 = false.

(** The order in which the specification lists the heuristics. *)
Definition specOrder : list Heuristic :=
  [SelectionCollapsed; LeafStart; TabInSpan; FingerprintChanged;
   DirectionChanged; FirefoxQuickfind].

(** The order of the tests in the source (lines 117, 165, 172, 190, 202, 205). *)
Definition sourceOrder : list Heuristic :=
  [SelectionCollapsed; LeafStart; TabInSpan; FingerprintChanged;
   FirefoxQuickfind; DirectionChanged].

(** ** The handler among the callbacks it queues *)

(** The two ways the code of this file is entered: the editor hands a
    beforeinput event to the handler, or the host runs the callback at the
    head of the queue filled by [setImmediate]. *)
Inductive Step :=
| Input (e : SyntheticInputEvent)
| Immediate.

Definition dequeue (w : World) : World :=
  {| editor := editor w; nativeSelection := nativeSelection w;
     immediates := tail (immediates w); trace := trace w |}.

Definition step (w : World) (st : Step) : World :=
  match st with
  | Input e => run (editOnBeforeInput e) w
  | Immediate =>
      match immediates w with
      | cb :: _ => run (runCallback cb) (dequeue w)
      | [] => w
      end
  end.

Definition steps (w : World) (sts : list Step) : World := foldl step w sts.

(** A pending state has a callback waiting to apply it. *)
Definition pendingScheduled (w : World) : Prop :=
  is_Some (_pendingStateFromBeforeInput (editor w)) ->
  ApplyPendingState ∈ immediates w.

(** The states passed to [editor.update], and the number of calls of
    [preventDefault], in a list of effects. *)
Definition updatesOf (evs : list Effect) : list EditorState :=
  omap (fun ev => match ev with
                  | Update s => Some s
                  | _ => None
                  end) evs.

Definition preventDefaultCalls (evs : list Effect) : nat :=
  length (omap (fun ev => match ev with
                          | PreventDefault => Some tt
                          | _ => None
                          end) evs).

End Handler.

(** ** A small document model

    One instance of the interface, used to run the handler on concrete
    events: blocks of plain text, a selection with anchor and focus, a
    decorator that splits a block at every ['#'], and left-to-right blocks
    unless the text starts with ['@']. *)

Module Toy.

Record Selection := {
  anchorKey : string; anchorOffset : nat;
  focusKey : string; focusOffset : nat;
  isBackward : bool
}.

Record Content := {
  blocks : list (string * string);     (* block key, block text *)
  selectionAfter : Selection
}.

Record State := {
  content : Content;
  selection : Selection;
  nativelyRenderedContent : option Content;
  lastChangeType : option string
}.

Definition startOffset (s : Selection) : nat :=
  if isBackward s then focusOffset s else anchorOffset s.
Definition endOffset (s : Selection) : nat :=
  if isBackward s then anchorOffset s else focusOffset s.
Definition collapsed (s : Selection) : bool :=
  bool_decide (anchorKey s = focusKey s)
  && bool_decide (anchorOffset s = focusOffset s).

Definition lookupField (name : string) (fields : list (string * nat))
    (default : nat) : nat :=
  match list_find (fun kv => kv.1 = name) fields with
  | Some (_, (_, v)) => v
  | None => default
  end.

Definition merge (s : Selection) (fields : list (string * nat)) : Selection :=
  {| anchorKey := anchorKey s;
     anchorOffset := lookupField "anchorOffset" fields (anchorOffset s);
     focusKey := focusKey s;
     focusOffset := lookupField "focusOffset" fields (focusOffset s);
     isBackward := isBackward s |}.

Definition blockText (c : Content) (key : string) : string :=
  match list_find (fun kv => kv.1 = key) (blocks c) with
  | Some (_, (_, t)) => t
  | None => ""
  end.

Definition plainText (c : Content) : string :=
  String.concat (String (Ascii.ascii_of_nat 10) EmptyString) (blocks c).*2.

Definition spliceText (t : string) (from to : nat) (ins : string) : string :=
  String.substring 0 from t +:+ ins +:+ String.substring to (String.length t - to) t.

Definition replaceText (c : Content) (s : Selection) (text : string)
    (style : unit) (entity : option string) : Content :=
  let key := anchorKey s in
  let at_ := startOffset s + String.length text in
  {| blocks :=
       (fun kv => if bool_decide (kv.1 = key)
                  then (kv.1, spliceText kv.2 (startOffset s) (endOffset s) text)
                  else kv) <$> blocks c;
     selectionAfter :=
       {| anchorKey := key; anchorOffset := at_;
          focusKey := key; focusOffset := at_; isBackward := false |} |}.

Definition push (es : State) (c : Content) (changeType : string) : State :=
  {| content := c; selection := selectionAfter c;
     nativelyRenderedContent := None;
     lastChangeType := Some changeType |}.

Definition forceSelection (es : State) (s : Selection) : State :=
  {| content := content es; selection := s;
     nativelyRenderedContent := None;
     lastChangeType := lastChangeType es |}.

Definition set (es : State) (fields : list (string * Content)) : State :=
  {| content := content es; selection := selection es;
     nativelyRenderedContent :=
       match list_find (fun kv => kv.1 = "nativelyRenderedContent") fields with
       | Some (_, (_, c)) => Some c
       | None => nativelyRenderedContent es
       end;
     lastChangeType := lastChangeType es |}.

(** Leaves of a block: one more than the number of ['#'] in its text. *)
Fixpoint leaves (t : string) : nat :=
  match t with
  | EmptyString => 1
  | String c t' => if bool_decide (c = "#"%char) then S (leaves t') else leaves t'
  end.

Definition fingerprint (n : nat) : string :=
  String.concat "-" (replicate n "leaf").

Definition direction (t : string) : string :=
  match t with
  | String "@" _ => "RTL"
  | _ => "LTR"
  end.

Definition directionMap (es : State) : gmap string string :=
  list_to_map ((fun kv => (kv.1, direction kv.2)) <$> blocks (content es)).

Definition draftModel (firefox : bool) : DraftModel := {|
  EditorState := State;
  ContentState := Content;
  SelectionState := Selection;
  DraftInlineStyle := unit;
  BlockTreeList := nat;
  DraftHandleValue := string;
  getCurrentContent := content;
  getSelection := selection;
  getCurrentInlineStyle := fun _ => tt;
  getBlockTree := fun es key => leaves (blockText (content es) key);
  getDirectionMap := fun es => Some (directionMap es);
  EditorState_push := push;
  EditorState_forceSelection := forceSelection;
  EditorState_set := set;
  getPlainText := plainText;
  getStartOffset := startOffset;
  getEndOffset := endOffset;
  getAnchorKey := anchorKey;
  isCollapsed := collapsed;
  SelectionState_merge := merge;
  DraftModifier_replaceText := replaceText;
  BlockTree_getFingerprint := fingerprint;
  getEntityKeyForSelection := fun _ _ => None;
  isEventHandled := fun v => bool_decide (v = "handled");
  isSelectionAtLeafStart := fun es => bool_decide (anchorOffset (selection es) = 0);
  UserAgent_isBrowser := fun name => firefox && bool_decide (name = "Firefox")
|}.

(** [update] records the state as the latest one, as the component does
    before it calls [onChange]. *)
Definition editorMethods (firefox : bool) :
    @DraftEditorMethods (draftModel firefox) := {|
  update := fun ed s =>
    @Build_DraftEditor (draftModel firefox)
      (_pendingStateFromBeforeInput ed) s
      (_latestCommittedEditorState ed) (props ed)
|}.

Definition caret (key : string) (offset : nat) : Selection :=
  {| anchorKey := key; anchorOffset := offset;
     focusKey := key; focusOffset := offset; isBackward := false |}.

Definition range (key : string) (from to : nat) : Selection :=
  {| anchorKey := key; anchorOffset := from;
     focusKey := key; focusOffset := to; isBackward := false |}.

Definition state (text : string) (sel : Selection) : State :=
  {| content := {| blocks := [("a", text)]; selectionAfter := sel |};
     selection := sel;
     nativelyRenderedContent := None;
     lastChangeType := None |}.

Definition mkEditor (firefox : bool) (pending : option State) (es : State)
    (handler : option (string -> State -> string)) :
    @DraftEditor (draftModel firefox) :=
  @Build_DraftEditor (draftModel firefox) pending es es
    (@Build_Props (draftModel firefox) handler).

Definition textNode (value : string) : DomNode :=
  {| nodeType := Node.TEXT_NODE; nodeName := "#text"; nodeValue := value |}.
Definition spanNode : DomNode :=
  {| nodeType := Node.ELEMENT_NODE; nodeName := "SPAN"; nodeValue := "" |}.

(** The caret in a text node that is the only child of a SPAN. *)
Definition caretInSpan (value : string) : NativeSelection :=
  {| anchorNode :=
       Some {| anchorSelf := textNode value;
               parentNode := {| parentSelf := spanNode;
                                firstChild := textNode value |} |} |}.

Definition world (firefox : bool) (pending : option State) (es : State)
    (handler : option (string -> State -> string)) (dom : NativeSelection) :
    @World (draftModel firefox) :=
  @Build_World (draftModel firefox)
    (mkEditor firefox pending es handler) dom [] [].

Definition input (chars : string) : SyntheticInputEvent :=
  {| data := Some chars |}.

(** The same model with the direction maps missing:
    [getDirectionMap()] returns [null]. *)
Definition withoutDirectionMaps (m : DraftModel) : DraftModel := {|
  EditorState := @EditorState m;
  ContentState := @ContentState m;
  SelectionState := @SelectionState m;
  DraftInlineStyle := @DraftInlineStyle m;
  BlockTreeList := @BlockTreeList m;
  DraftHandleValue := @DraftHandleValue m;
  getCurrentContent := @getCurrentContent m;
  getSelection := @getSelection m;
  getCurrentInlineStyle := @getCurrentInlineStyle m;
  getBlockTree := @getBlockTree m;
  getDirectionMap := fun _ => None;
  EditorState_push := @EditorState_push m;
  EditorState_forceSelection := @EditorState_forceSelection m;
  EditorState_set := @EditorState_set m;
  getPlainText := @getPlainText m;
  getStartOffset := @getStartOffset m;
  getEndOffset := @getEndOffset m;
  getAnchorKey := @getAnchorKey m;
  isCollapsed := @isCollapsed m;
  SelectionState_merge := @SelectionState_merge m;
  DraftModifier_replaceText := @DraftModifier_replaceText m;
  BlockTree_getFingerprint := @BlockTree_getFingerprint m;
  getEntityKeyForSelection := @getEntityKeyForSelection m;
  isEventHandled := @isEventHandled m;
  isSelectionAtLeafStart := @isSelectionAtLeafStart m;
  UserAgent_isBrowser := @UserAgent_isBrowser m
|}.

(** The text a selection covers.  Offsets of a selection count from the
    start of its block; [blockStart] is where the block begins in the plain
    text of the document, blocks being joined by a newline. *)
Definition startKey (s : Selection) : string :=
  if isBackward s then focusKey s else anchorKey s.
Definition endKey (s : Selection) : string :=
  if isBackward s then anchorKey s else focusKey s.

Fixpoint blockStart (bs : list (string * string)) (key : string) : nat :=
  match bs with
  | [] => 0
  | (k, t) :: rest =>
      if bool_decide (k = key) then 0
      else String.length t + 1 + blockStart rest key
  end.

Definition selectedText (es : State) : string :=
  let s := selection es in
  slice (plainText (content es))
        (blockStart (blocks (content es)) (startKey s) + startOffset s)
        (blockStart (blocks (content es)) (endKey s) + endOffset s).

End Toy.

(** * The handler on concrete events *)

Module Examples.
Import Toy.

(** Chrome and Firefox over the small document model. *)
Definition chrome : DraftModel := draftModel false.
Definition firefox : DraftModel := draftModel true.
Definition chromeEditor : @DraftEditorMethods chrome := editorMethods false.
Definition firefoxEditor : @DraftEditorMethods firefox := editorMethods true.

(** The caret after "he" in the block "hello", nothing pending. *)
Definition typing : @World chrome :=
  world false None (state "hello" (caret "a" 2)) None (caretInSpan "hello").

(** The same caret, with the state of an earlier insertion still pending. *)
Definition typingPending : @World chrome :=
  world false (Some (state "hello" (caret "a" 2)))
    (state "hell" (caret "a" 1)) None (caretInSpan "hello").

(** "ell" selected in the block "hello". *)
Definition selecting : @World chrome :=
  world false None (state "hello" (range "a" 1 4)) None (caretInSpan "hello").

(** The caret after "he", with a prop that handles every event. *)
Definition handling : @World chrome :=
  world false None (state "hello" (caret "a" 2))
    (Some (fun _ _ => "handled")) (caretInSpan "hello").

(** The caret after "he" on Firefox. *)
Definition typingFirefox : @World firefox :=
  world true None (state "hello" (caret "a" 2)) None (caretInSpan "hello").

Definition noData : SyntheticInputEvent := {| data := None |}.

(** Chrome over a model whose direction maps are missing, with the caret
    after "he" in "hello". *)
Definition unmapped : DraftModel := withoutDirectionMaps chrome.
Definition unmappedEditor : @DraftEditorMethods unmapped := {|
  update := fun ed s =>
    @Build_DraftEditor unmapped
      (_pendingStateFromBeforeInput ed) s
      (_latestCommittedEditorState ed) (props ed)
|}.
Definition typingUnmapped : @World unmapped :=
  @Build_World unmapped
    (@Build_DraftEditor unmapped None
       (state "hello" (caret "a" 2)) (state "hello" (caret "a" 2))
       (@Build_Props unmapped None))
    (caretInSpan "hello") [] [].

(** A document of two blocks, "hello" and "world". *)
Definition twoBlocks (sel : Toy.Selection) : Toy.State :=
  {| content := {| blocks := [("a", "hello"); ("b", "world")];
                   selectionAfter := sel |};
     selection := sel;
     nativelyRenderedContent := None;
     lastChangeType := None |}.

(** "orl" selected in the second block. *)
Definition selectingSecondBlock : @World chrome :=
  world false None (twoBlocks (range "b" 1 4)) None (caretInSpan "world").

(** The selection from offset 1 of the first block to offset 2 of the
    second. *)
Definition acrossBlocks : Toy.Selection :=
  {| anchorKey := "a"; anchorOffset := 1;
     focusKey := "b"; focusOffset := 2; isBackward := false |}.
Definition selectingAcrossBlocks : @World chrome :=
  world false None (twoBlocks acrossBlocks) None (caretInSpan "hello").

End Examples.

(** * Properties of the handler *)

Section Properties.
Context {DM : DraftModel} {EM : DraftEditorMethods}.

Implicit Types (w : World) (e : SyntheticInputEvent) (chars : string).

(** ** The entry flush *)

Lemma applyPendingState_normal w :
  applyPendingState w = (Normal tt, afterEntryFlush w).
Proof.
  unfold afterEntryFlush, run, applyPendingState, mbind, Js_bind, getEditor.
  cbn. destruct (_pendingStateFromBeforeInput (editor w)); reflexivity.
Qed.

Lemma afterEntryFlush_none w :
  _pendingStateFromBeforeInput (editor w) = None -> afterEntryFlush w = w.
Proof.
  intros Hp. unfold afterEntryFlush, run, applyPendingState, mbind, Js_bind, getEditor.
  cbn. rewrite Hp. reflexivity.
Qed.

Lemma afterEntryFlush_some w pending :
  _pendingStateFromBeforeInput (editor w) = Some pending ->
  afterEntryFlush w =
    {| editor := set_pendingStateFromBeforeInput None (update (editor w) pending);
       nativeSelection := nativeSelection w;
       immediates := immediates w;
       trace := trace w ++ [Update pending] |}.
Proof.
  intros Hp. unfold afterEntryFlush, run, applyPendingState, mbind, Js_bind, getEditor.
  cbn. rewrite Hp. reflexivity.
Qed.

Lemma afterEntryFlush_pending w :
  _pendingStateFromBeforeInput (editor (afterEntryFlush w)) = None.
Proof.
  destruct (_pendingStateFromBeforeInput (editor w)) as [p|] eqn:Hp.
  - rewrite (afterEntryFlush_some _ _ Hp). reflexivity.
  - rewrite (afterEntryFlush_none _ Hp). exact Hp.
Qed.

Lemma afterEntryFlush_dom w :
  nativeSelection (afterEntryFlush w) = nativeSelection w.
Proof.
  destruct (_pendingStateFromBeforeInput (editor w)) as [p|] eqn:Hp.
  - rewrite (afterEntryFlush_some _ _ Hp). reflexivity.
  - rewrite (afterEntryFlush_none _ Hp). reflexivity.
Qed.

Lemma afterEntryFlush_immediates w :
  immediates (afterEntryFlush w) = immediates w.
Proof.
  destruct (_pendingStateFromBeforeInput (editor w)) as [p|] eqn:Hp.
  - rewrite (afterEntryFlush_some _ _ Hp). reflexivity.
  - rewrite (afterEntryFlush_none _ Hp). reflexivity.
Qed.

Lemma bind_run {A B} (m : Js A) (f : A -> Js B) w :
  (m ≫= f) w =
    match m w with
    | (Normal a, w') => f a w'
    | (Returned, w') => (Returned, w')
    | (Thrown err, w') => (Thrown err, w')
    end.
Proof. reflexivity. Qed.

(** The handler starts with the flush, so it runs from [w] as it runs from
    the flushed world. *)
Lemma editOnBeforeInput_flush e w :
  editOnBeforeInput e w = editOnBeforeInput e (afterEntryFlush w).
Proof.
  unfold editOnBeforeInput, function.
  rewrite !bind_run, !applyPendingState_normal.
  rewrite (afterEntryFlush_none (afterEntryFlush w) (afterEntryFlush_pending w)).
  reflexivity.
Qed.

(** ** Strings and the trace *)

Lemma effectsSince_app w ed dom imm (evs : list Effect) :
  effectsSince w {| editor := ed; nativeSelection := dom; immediates := imm;
                    trace := trace w ++ evs |} = evs.
Proof. unfold effectsSince. cbn. apply drop_app_length. Qed.

Lemma effectsSince_refl w : effectsSince w w = [].
Proof. unfold effectsSince. apply drop_all. Qed.

Lemma get_substring_one (s : string) (i : nat) (c : ascii) :
  String.get i s = Some c -> String.substring i 1 s = String c EmptyString.
Proof.
  intros Hg. apply String.get_correct. intros [|p].
  - rewrite String.substring_correct1 by lia. cbn. exact Hg.
  - rewrite String.substring_correct2 by lia. reflexivity.
Qed.

Lemma indexOf_TAB (s : string) : indexOf TAB s <> (-1)%Z <-> containsTab s.
Proof.
  unfold indexOf, containsTab, TAB. split.
  - destruct (String.index 0 _ s) as [i|] eqn:Hi; [|congruence].
    intros _. exists i. apply String.index_correct1 in Hi. cbn in Hi.
    pose proof (String.substring_correct1 s i 1 0 ltac:(lia)) as Hs.
    cbn in Hs. rewrite <- Hs, Hi. reflexivity.
  - intros [i Hg]. destruct (String.index 0 _ s) as [j|] eqn:Hj; [lia|].
    exfalso. apply (String.index_correct3 0 i) in Hj; [|discriminate|lia].
    apply Hj. cbn. apply get_substring_one, Hg.
Qed.

(** The test of lines 178-188 decides the heuristic as the specification
    words it. *)
Lemma tabInSpan_spec (sel : NativeSelection) :
  tabInSpan sel = true <-> tabInSpanNode sel.
Proof.
  unfold tabInSpan, tabInSpanNode. destruct (anchorNode sel) as [anchor|].
  - case_bool_decide as Ht.
    + rewrite !andb_true_iff, negb_true_iff, !bool_decide_eq_true,
        bool_decide_eq_false, indexOf_TAB.
      split.
      * intros [[Hn Hf] Hv]. exists anchor. tauto.
      * intros (a & [= <-] & _ & Hn & Hf & Hv). tauto.
    + split; [discriminate|]. intros (a & [= <-] & Ht' & _). contradiction.
  - split; [discriminate|]. intros (a & Ha & _). discriminate.
Qed.

Lemma mustPreventDefaultForCharacter_spec chars :
  mustPreventDefaultForCharacter chars = true <-> firefoxQuickfindChar chars.
Proof.
  unfold mustPreventDefaultForCharacter, firefoxQuickfindChar,
    FF_QUICKFIND_CHAR, FF_QUICKFIND_LINK_CHAR.
  rewrite andb_true_iff, orb_true_iff, !bool_decide_eq_true. reflexivity.
Qed.

(** ** The paths through the handler, from a world with nothing pending *)

Ltac js_unfold :=
  unfold editOnBeforeInput, function, when_, preventDefault, editor_update,
    nullthrows, throw, return_, tell, modifyEditor, setImmediate,
    global_getSelection, getEditor, addTrace, withEditor, enqueue,
    mbind, Js_bind, mret, Js_ret.

Ltac js_enter Hp :=
  unfold editOnBeforeInput, function;
  rewrite bind_run, applyPendingState_normal, (afterEntryFlush_none _ Hp).

Lemma path_no_data e w :
  _pendingStateFromBeforeInput (editor w) = None ->
  data e = None \/ data e = Some "" ->
  editOnBeforeInput e w = (Normal tt, w).
Proof.
  intros Hp Hd. js_enter Hp. js_unfold.
  destruct Hd as [-> | ->]; reflexivity.
Qed.

Lemma path_handled e w chars :
  let es := _latestEditorState (editor w) in
  _pendingStateFromBeforeInput (editor w) = None ->
  data e = Some chars -> chars <> "" ->
  handledByProp (editor w) chars es = true ->
  editOnBeforeInput e w =
    (Normal tt,
     {| editor := editor w; nativeSelection := nativeSelection w;
        immediates := immediates w;
        trace := trace w ++ [CallHandleBeforeInput chars es; PreventDefault] |}).
Proof.
  intros es Hp Hd Hne Hh. js_enter Hp. js_unfold.
  rewrite Hd. destruct chars as [|c chars']; [congruence|].
  unfold handledByProp in Hh.
  destruct (handleBeforeInput (props (editor w))) as [handler|]; [|discriminate].
  cbn. fold es. rewrite Hh. cbn. rewrite <- app_assoc. reflexivity.
Qed.

Lemma path_not_collapsed e w chars :
  let es := _latestEditorState (editor w) in
  let s := if bool_decide (chars = selectedChars es)
           then EditorState_forceSelection es (collapsedToEnd (getSelection es))
           else insertedState es chars in
  _pendingStateFromBeforeInput (editor w) = None ->
  data e = Some chars -> chars <> "" ->
  handledByProp (editor w) chars es = false ->
  isCollapsed (getSelection es) = false ->
  editOnBeforeInput e w =
    (Normal tt,
     {| editor := update (editor w) s; nativeSelection := nativeSelection w;
        immediates := immediates w;
        trace := trace w ++ propCall (editor w) chars es
                   ++ [Evaluated SelectionCollapsed true; PreventDefault]
                   ++ (if bool_decide (chars = selectedChars es)
                       then [] else [CallReplaceText chars es])
                   ++ [Update s] |}).
Proof.
  intros es s Hp Hd Hne Hh Hc. js_enter Hp. js_unfold.
  rewrite Hd. destruct chars as [|c chars']; [congruence|].
  unfold handledByProp in Hh. unfold propCall. subst s.
  unfold selectedChars, insertedState, collapsedToEnd. fold es.
  destruct (handleBeforeInput (props (editor w))) as [handler|];
    cbn; fold es; rewrite ?Hh, Hc; cbn;
    case_bool_decide; cbn; rewrite <- ?app_assoc; reflexivity.
Qed.

Lemma path_collapsed e w chars :
  let es := _latestEditorState (editor w) in
  let new := insertedState es chars in
  let key := getAnchorKey (getSelection es) in
  let pre := trace w ++ propCall (editor w) chars es
               ++ [Evaluated SelectionCollapsed false; CallReplaceText chars es] in
  let prevented checks :=
    (Normal tt,
     {| editor := update (editor w) new; nativeSelection := nativeSelection w;
        immediates := immediates w;
        trace := pre ++ checks ++ [PreventDefault; Update new] |}) in
  let thrown :=
    (Thrown "Got unexpected null or undefined",
     {| editor := editor w; nativeSelection := nativeSelection w;
        immediates := immediates w;
        trace := pre ++ [Evaluated LeafStart false; Evaluated TabInSpan false;
                         Evaluated FingerprintChanged false;
                         Evaluated FirefoxQuickfind false] |}) in
  _pendingStateFromBeforeInput (editor w) = None ->
  data e = Some chars -> chars <> "" ->
  handledByProp (editor w) chars es = false ->
  isCollapsed (getSelection es) = true ->
  editOnBeforeInput e w =
    if isSelectionAtLeafStart (_latestCommittedEditorState (editor w)) then
      prevented [Evaluated LeafStart true]
    else if tabInSpan (nativeSelection w) then
      prevented [Evaluated LeafStart false; Evaluated TabInSpan true]
    else if negb (bool_decide
                    (BlockTree_getFingerprint (getBlockTree es key)
                     = BlockTree_getFingerprint (getBlockTree new key))) then
      prevented [Evaluated LeafStart false; Evaluated TabInSpan false;
                 Evaluated FingerprintChanged true]
    else if mustPreventDefaultForCharacter chars then
      prevented [Evaluated LeafStart false; Evaluated TabInSpan false;
                 Evaluated FingerprintChanged false;
                 Evaluated FirefoxQuickfind true]
    else
      match getDirectionMap new, getDirectionMap es with
      | Some newMap, Some oldMap =>
          if negb (bool_decide (newMap !! key = oldMap !! key)) then
            prevented [Evaluated LeafStart false; Evaluated TabInSpan false;
                       Evaluated FingerprintChanged false;
                       Evaluated FirefoxQuickfind false;
                       Evaluated DirectionChanged true]
          else
            (Normal tt,
             {| editor :=
                  set_pendingStateFromBeforeInput
                    (Some (EditorState_set new
                             [("nativelyRenderedContent", getCurrentContent new)]))
                    (editor w);
                nativeSelection := nativeSelection w;
                immediates := immediates w ++ [ApplyPendingState];
                trace := pre ++ [Evaluated LeafStart false;
                                 Evaluated TabInSpan false;
                                 Evaluated FingerprintChanged false;
                                 Evaluated FirefoxQuickfind false;
                                 Evaluated DirectionChanged false] |})
      | _, _ => thrown
      end.
Proof.
  intros es new key pre prevented thrown Hp Hd Hne Hh Hc.
  js_enter Hp. js_unfold.
  rewrite Hd. destruct chars as [|c chars']; [congruence|].
  unfold handledByProp in Hh. subst prevented thrown pre. unfold propCall.
  fold es. fold (insertedState es (String c chars')). fold new. fold key.
  destruct (handleBeforeInput (props (editor w))) as [handler|];
    cbn; fold es; rewrite ?Hh, Hc; cbn;
    (destruct (isSelectionAtLeafStart _); cbn;
       [rewrite <- ?app_assoc; reflexivity|]);
    (destruct (tabInSpan _); cbn; [rewrite <- ?app_assoc; reflexivity|]);
    (destruct (negb (bool_decide (BlockTree_getFingerprint _ = _))); cbn;
       [rewrite <- ?app_assoc; reflexivity|]);
    (destruct (mustPreventDefaultForCharacter _); cbn;
       [rewrite <- ?app_assoc; reflexivity|]);
    (destruct (getDirectionMap new) as [newMap|]; cbn;
       [|rewrite <- ?app_assoc; reflexivity]);
    (destruct (getDirectionMap es) as [oldMap|]; cbn;
       [|rewrite <- ?app_assoc; reflexivity]);
    destruct (negb (bool_decide (newMap !! key = oldMap !! key))); cbn;
    rewrite <- ?app_assoc; reflexivity.
Qed.

(** ** The paths, from any world *)

(** Membership in an explicit trace. *)
Ltac in_trace :=
  repeat first
    [ apply list_elem_of_here
    | apply list_elem_of_further ].
Ltac not_in_trace H :=
  repeat (apply elem_of_cons in H as [H|H]; [try discriminate H|]);
  try (apply elem_of_nil in H; contradiction).

(** ** Events without character data, and events the prop handles *)

Lemma no_data_run e w :
  data e = None \/ data e = Some "" ->
  editOnBeforeInput e w = (Normal tt, afterEntryFlush w).
Proof.
  intros Hd. rewrite editOnBeforeInput_flush.
  apply path_no_data; [apply afterEntryFlush_pending | exact Hd].
Qed.

Lemma no_data_effects e w :
  data e = None \/ data e = Some "" -> effects e w = [].
Proof.
  intros Hd. unfold effects, run. rewrite (no_data_run e w Hd).
  apply effectsSince_refl.
Qed.

(** C6. When the event carries no character data ([e.data] is absent or the
    empty string) the handler returns right after the entry flush: the world
    it leaves is the flushed world, so it adds no effect (no
    [preventDefault], no [editor.update]) and changes no field of the editor;
    with nothing pending at entry the world is unchanged altogether. *)
Theorem no_data_returns_after_flush e w :
  data e = None \/ data e = Some "" ->
  editOnBeforeInput e w = (Normal tt, afterEntryFlush w)
  /\ effects e w = []
  /\ (_pendingStateFromBeforeInput (editor w) = None ->
      run (editOnBeforeInput e) w = w).
Proof.
  intros Hd. pose proof (no_data_run e w Hd) as Heq.
  split; [exact Heq|]. split.
  - apply no_data_effects, Hd.
  - intros Hp. unfold run. rewrite Heq. apply afterEntryFlush_none, Hp.
Qed.

(** C10. When the [handleBeforeInput] prop is present and reports the event
    as handled, the handler calls [preventDefault] and returns: after the
    entry flush it adds the call of the prop and [preventDefault] to the
    trace and nothing else (no replacement state is computed, no
    [editor.update]), and the editor, the queue of immediates and the DOM
    selection are those of the flushed world. *)
Theorem handled_by_prop_only_prevents e w chars handler :
  data e = Some chars -> chars <> "" ->
  handleBeforeInput (props (flushedEditor w)) = Some handler ->
  isEventHandled (handler chars (currentState w)) = true ->
  outcome (editOnBeforeInput e) w = Normal tt
  /\ effects e w = [CallHandleBeforeInput chars (currentState w); PreventDefault]
  /\ callsPreventDefault (effects e w)
  /\ ~ updatesEditor (effects e w)
  /\ (forall c s, CallReplaceText c s ∉ effects e w)
  /\ editor (run (editOnBeforeInput e) w) = flushedEditor w
  /\ immediates (run (editOnBeforeInput e) w) = immediates (afterEntryFlush w)
  /\ nativeSelection (run (editOnBeforeInput e) w)
     = nativeSelection (afterEntryFlush w).
Proof.
  intros Hd Hne Hprop Hh.
  assert (Hhandled : handledByProp (editor (afterEntryFlush w)) chars
                       (_latestEditorState (editor (afterEntryFlush w))) = true).
  { unfold handledByProp. unfold flushedEditor in Hprop. rewrite Hprop. exact Hh. }
  pose proof (path_handled e (afterEntryFlush w) chars
                (afterEntryFlush_pending w) Hd Hne Hhandled) as Heq.
  rewrite <- editOnBeforeInput_flush in Heq.
  assert (Heff : effects e w
                 = [CallHandleBeforeInput chars (currentState w); PreventDefault]).
  { unfold effects, run. rewrite Heq. apply effectsSince_app. }
  unfold outcome, run. rewrite Heff, Heq. cbn.
  repeat split.
  - unfold callsPreventDefault. in_trace.
  - intros [s Hs]. not_in_trace Hs.
  - intros c s Hs. not_in_trace Hs.
Qed.

(** ** Collapsed selections: the gate of lines 164-215 *)

(** A concrete list of verdicts follows the order of the source. *)
Ltac in_order :=
  split; [reflexivity|];
  let i := fresh "i" in let hb := fresh "hb" in
  let Hl := fresh "Hl" in let Hlt := fresh "Hlt" in
  intros i hb Hl Hlt; cbn in Hlt;
  do 7 (destruct i as [|i];
        [first [ injection Hl as <-; first [reflexivity | lia] | discriminate Hl ]|]);
  cbn in Hl; try discriminate Hl; lia.

Ltac gate_case :=
  split; [repeat constructor|];
  split; [in_order|];
  rewrite <- !app_assoc; reflexivity.

Lemma collapsed_run e w chars :
  data e = Some chars -> chars <> "" ->
  handled w chars = false ->
  isCollapsed (getSelection (currentState w)) = true ->
  exists checks,
    Forall isCheck checks /\
    evaluatedInOrder sourceOrder ((SelectionCollapsed, false) :: evaluated checks) /\
    editOnBeforeInput e w =
      match mustPreventNative w chars with
      | Some true =>
          (Normal tt,
           {| editor := update (flushedEditor w) (nextState w chars);
              nativeSelection := nativeSelection (afterEntryFlush w);
              immediates := immediates (afterEntryFlush w);
              trace := trace (afterEntryFlush w)
                ++ (propCall (flushedEditor w) chars (currentState w)
                    ++ [Evaluated SelectionCollapsed false;
                        CallReplaceText chars (currentState w)]
                    ++ checks
                    ++ [PreventDefault; Update (nextState w chars)]) |})
      | Some false =>
          (Normal tt,
           {| editor :=
                set_pendingStateFromBeforeInput
                  (Some (EditorState_set (nextState w chars)
                           [("nativelyRenderedContent",
                             getCurrentContent (nextState w chars))]))
                  (flushedEditor w);
              nativeSelection := nativeSelection (afterEntryFlush w);
              immediates := immediates (afterEntryFlush w) ++ [ApplyPendingState];
              trace := trace (afterEntryFlush w)
                ++ (propCall (flushedEditor w) chars (currentState w)
                    ++ [Evaluated SelectionCollapsed false;
                        CallReplaceText chars (currentState w)]
                    ++ checks) |})
      | None =>
          (Thrown "Got unexpected null or undefined",
           {| editor := flushedEditor w;
              nativeSelection := nativeSelection (afterEntryFlush w);
              immediates := immediates (afterEntryFlush w);
              trace := trace (afterEntryFlush w)
                ++ (propCall (flushedEditor w) chars (currentState w)
                    ++ [Evaluated SelectionCollapsed false;
                        CallReplaceText chars (currentState w)]
                    ++ checks) |})
      end.
Proof.
  intros Hd Hne Hh Hc.
  rewrite editOnBeforeInput_flush.
  rewrite (path_collapsed e (afterEntryFlush w) chars
             (afterEntryFlush_pending w) Hd Hne Hh Hc).
  unfold mustPreventNative, nextState, anchorBlock, currentState, flushedEditor.
  rewrite (afterEntryFlush_dom w).
  cbv zeta.
  destruct (isSelectionAtLeafStart _).
  { exists [Evaluated LeafStart true]. gate_case. }
  destruct (tabInSpan _).
  { exists [Evaluated LeafStart false; Evaluated TabInSpan true].
    gate_case. }
  destruct (negb (bool_decide (BlockTree_getFingerprint _ = _))).
  { exists [Evaluated LeafStart false; Evaluated TabInSpan false;
            Evaluated FingerprintChanged true].
    gate_case. }
  destruct (mustPreventDefaultForCharacter _).
  { exists [Evaluated LeafStart false; Evaluated TabInSpan false;
            Evaluated FingerprintChanged false; Evaluated FirefoxQuickfind true].
    gate_case. }
  destruct (getDirectionMap (insertedState _ _)) as [newMap|];
    [destruct (getDirectionMap _) as [oldMap|]|].
  - destruct (negb (bool_decide (newMap !! _ = oldMap !! _))).
    + exists [Evaluated LeafStart false; Evaluated TabInSpan false;
              Evaluated FingerprintChanged false;
              Evaluated FirefoxQuickfind false; Evaluated DirectionChanged true].
      gate_case.
    + exists [Evaluated LeafStart false; Evaluated TabInSpan false;
              Evaluated FingerprintChanged false;
              Evaluated FirefoxQuickfind false; Evaluated DirectionChanged false].
      gate_case.
  - exists [Evaluated LeafStart false; Evaluated TabInSpan false;
            Evaluated FingerprintChanged false; Evaluated FirefoxQuickfind false].
    gate_case.
  - exists [Evaluated LeafStart false; Evaluated TabInSpan false;
            Evaluated FingerprintChanged false; Evaluated FirefoxQuickfind false].
    gate_case.
Qed.

Lemma checks_only (checks : list Effect) (ev : Effect) :
  Forall isCheck checks -> ev ∈ checks -> isCheck ev.
Proof. intros Hall Hin. rewrite Forall_forall in Hall. apply Hall, Hin. Qed.

Lemma propCall_only (ed : DraftEditor) chars (es : EditorState) (ev : Effect) :
  ev ∈ propCall ed chars es -> ev = CallHandleBeforeInput chars es.
Proof.
  unfold propCall. destruct (handleBeforeInput (props ed)); intros Hin.
  - apply list_elem_of_singleton in Hin. exact Hin.
  - apply elem_of_nil in Hin. contradiction.
Qed.

(** The trace of a collapsed run up to the verdict holds no [preventDefault]
    and no [editor.update]. *)

Lemma gate_trace_inv (ed : DraftEditor) chars (es : EditorState)
    (checks rest : list Effect) (ev : Effect) :
  Forall isCheck checks ->
  ev ∈ propCall ed chars es
         ++ [Evaluated SelectionCollapsed false; CallReplaceText chars es]
         ++ checks ++ rest ->
  quiet ev \/ ev ∈ rest.
Proof.
  intros Hall Hin.
  rewrite !elem_of_app in Hin. destruct Hin as [Hin | [Hin | [Hin | Hin]]].
  - apply propCall_only in Hin. subst ev. left. split; [|intros s]; discriminate.
  - left. apply elem_of_cons in Hin as [-> | Hin]; [split; [|intros s]; discriminate|].
    apply list_elem_of_singleton in Hin. subst ev.
    split; [|intros s]; discriminate.
  - left. pose proof (checks_only _ _ Hall Hin) as Hc.
    split; [|intros s]; intros ->; exact Hc.
  - right. exact Hin.
Qed.

Lemma gate_trace_rest (ed : DraftEditor) chars (es : EditorState)
    (checks rest : list Effect) (ev : Effect) :
  ev ∈ rest ->
  ev ∈ propCall ed chars es
         ++ [Evaluated SelectionCollapsed false; CallReplaceText chars es]
         ++ checks ++ rest.
Proof. intros Hin. rewrite !elem_of_app. auto. Qed.

Lemma gate_trace_quiet (ed : DraftEditor) chars (es : EditorState)
    (checks : list Effect) :
  Forall isCheck checks ->
  allowsNativeInsertion
    (propCall ed chars es
       ++ [Evaluated SelectionCollapsed false; CallReplaceText chars es]
       ++ checks).
Proof.
  intros Hall. rewrite <- (app_nil_r checks). split.
  - intros Hin. apply (gate_trace_inv _ _ _ _ _ _ Hall) in Hin as [[Hq _] | Hin].
    + congruence.
    + apply elem_of_nil in Hin. contradiction.
  - intros [s Hin].
    apply (gate_trace_inv _ _ _ _ _ _ Hall) in Hin as [[_ Hq] | Hin].
    + exact (Hq s eq_refl).
    + apply elem_of_nil in Hin. contradiction.
Qed.

Lemma collapsed_prevented e w chars :
  data e = Some chars -> chars <> "" ->
  handled w chars = false ->
  isCollapsed (getSelection (currentState w)) = true ->
  mustPreventNative w chars = Some true ->
  outcome (editOnBeforeInput e) w = Normal tt
  /\ callsPreventDefault (effects e w)
  /\ (forall s, Update s ∈ effects e w <-> s = nextState w chars)
  /\ editor (run (editOnBeforeInput e) w)
     = update (flushedEditor w) (nextState w chars)
  /\ immediates (run (editOnBeforeInput e) w) = immediates (afterEntryFlush w).
Proof.
  intros Hd Hne Hh Hc Hv.
  destruct (collapsed_run e w chars Hd Hne Hh Hc) as (checks & Hall & _ & Heq).
  rewrite Hv in Heq. unfold outcome, effects, run. rewrite Heq.
  cbn [fst snd]. rewrite effectsSince_app.
  split; [reflexivity|]. split; [|split; [|split; reflexivity]].
  - apply gate_trace_rest. in_trace.
  - intros s. split.
    + intros Hin. apply (gate_trace_inv _ _ _ _ _ _ Hall) in Hin as [[_ Hq] | Hin].
      * exfalso. exact (Hq s eq_refl).
      * not_in_trace Hin. congruence.
    + intros ->. apply gate_trace_rest. in_trace.
Qed.

Lemma collapsed_native e w chars :
  data e = Some chars -> chars <> "" ->
  handled w chars = false ->
  isCollapsed (getSelection (currentState w)) = true ->
  mustPreventNative w chars = Some false ->
  outcome (editOnBeforeInput e) w = Normal tt
  /\ allowsNativeInsertion (effects e w)
  /\ editor (run (editOnBeforeInput e) w)
     = set_pendingStateFromBeforeInput
         (Some (EditorState_set (nextState w chars)
                  [("nativelyRenderedContent",
                    getCurrentContent (nextState w chars))]))
         (flushedEditor w)
  /\ immediates (run (editOnBeforeInput e) w)
     = immediates (afterEntryFlush w) ++ [ApplyPendingState].
Proof.
  intros Hd Hne Hh Hc Hv.
  destruct (collapsed_run e w chars Hd Hne Hh Hc) as (checks & Hall & _ & Heq).
  rewrite Hv in Heq. unfold outcome, effects, run. rewrite Heq.
  cbn [fst snd]. rewrite effectsSince_app.
  split; [reflexivity|]. split; [|split; reflexivity].
  apply gate_trace_quiet, Hall.
Qed.

Lemma collapsed_thrown e w chars :
  data e = Some chars -> chars <> "" ->
  handled w chars = false ->
  isCollapsed (getSelection (currentState w)) = true ->
  mustPreventNative w chars = None ->
  outcome (editOnBeforeInput e) w = Thrown "Got unexpected null or undefined"
  /\ allowsNativeInsertion (effects e w)
  /\ editor (run (editOnBeforeInput e) w) = flushedEditor w
  /\ immediates (run (editOnBeforeInput e) w) = immediates (afterEntryFlush w).
Proof.
  intros Hd Hne Hh Hc Hv.
  destruct (collapsed_run e w chars Hd Hne Hh Hc) as (checks & Hall & _ & Heq).
  rewrite Hv in Heq. unfold outcome, effects, run. rewrite Heq.
  cbn [fst snd]. rewrite effectsSince_app.
  split; [reflexivity|]. split; [|split; reflexivity].
  apply gate_trace_quiet, Hall.
Qed.


(** ** Selections that are not collapsed (lines 117-151) *)

Lemma not_collapsed_run e w chars :
  data e = Some chars -> chars <> "" ->
  handled w chars = false ->
  isCollapsed (getSelection (currentState w)) = false ->
  outcome (editOnBeforeInput e) w = Normal tt
  /\ effects e w
     = propCall (flushedEditor w) chars (currentState w)
         ++ [Evaluated SelectionCollapsed true; PreventDefault]
         ++ (if bool_decide (chars = selectedChars (currentState w))
             then [] else [CallReplaceText chars (currentState w)])
         ++ [Update (rerenderedState (currentState w) chars)]
  /\ editor (run (editOnBeforeInput e) w)
     = update (flushedEditor w) (rerenderedState (currentState w) chars)
  /\ immediates (run (editOnBeforeInput e) w) = immediates (afterEntryFlush w).
Proof.
  intros Hd Hne Hh Hc.
  pose proof (path_not_collapsed e (afterEntryFlush w) chars
                (afterEntryFlush_pending w) Hd Hne Hh Hc) as Heq.
  rewrite <- editOnBeforeInput_flush in Heq. cbv zeta in Heq.
  unfold outcome, effects, run, rerenderedState, currentState, flushedEditor.
  rewrite Heq. cbn [fst snd]. rewrite effectsSince_app.
  repeat split; reflexivity.
Qed.

Lemma not_collapsed_updates e w chars s :
  data e = Some chars -> chars <> "" ->
  handled w chars = false ->
  isCollapsed (getSelection (currentState w)) = false ->
  Update s ∈ effects e w <-> s = rerenderedState (currentState w) chars.
Proof.
  intros Hd Hne Hh Hc.
  destruct (not_collapsed_run e w chars Hd Hne Hh Hc) as (_ & -> & _).
  rewrite !elem_of_app. split.
  - intros [Hin | [Hin | [Hin | Hin]]].
    + apply propCall_only in Hin. discriminate.
    + not_in_trace Hin.
    + case_bool_decide; not_in_trace Hin.
    + not_in_trace Hin. congruence.
  - intros ->. right. right. right. in_trace.
Qed.

Lemma not_collapsed_prevents e w chars :
  data e = Some chars -> chars <> "" ->
  handled w chars = false ->
  isCollapsed (getSelection (currentState w)) = false ->
  callsPreventDefault (effects e w).
Proof.
  intros Hd Hne Hh Hc.
  destruct (not_collapsed_run e w chars Hd Hne Hh Hc) as (_ & -> & _).
  unfold callsPreventDefault. rewrite !elem_of_app. right. left. in_trace.
Qed.

(** C2. For an event with non-empty character data that the prop does not
    handle, when the selection is not collapsed the handler calls
    [preventDefault] and updates the editor synchronously: the editor it
    leaves is the one [editor.update] returns.  Native insertion does not
    occur and no callback is queued. *)
Theorem not_collapsed_rerenders e w chars :
  data e = Some chars -> chars <> "" ->
  handled w chars = false ->
  isCollapsed (getSelection (currentState w)) = false ->
  outcome (editOnBeforeInput e) w = Normal tt
  /\ callsPreventDefault (effects e w)
  /\ (exists s, Update s ∈ effects e w
                /\ editor (run (editOnBeforeInput e) w)
                   = update (flushedEditor w) s)
  /\ ~ allowsNativeInsertion (effects e w)
  /\ immediates (run (editOnBeforeInput e) w) = immediates w.
Proof.
  intros Hd Hne Hh Hc.
  destruct (not_collapsed_run e w chars Hd Hne Hh Hc) as (Ho & Heff & Hed & Himm).
  pose proof (not_collapsed_prevents e w chars Hd Hne Hh Hc) as Hpd.
  split; [exact Ho|]. split; [exact Hpd|]. split; [|split].
  - exists (rerenderedState (currentState w) chars). split; [|exact Hed].
    apply (not_collapsed_updates e w chars _ Hd Hne Hh Hc). reflexivity.
  - intros [Hno _]. exact (Hno Hpd).
  - rewrite Himm. apply afterEntryFlush_immediates.
Qed.

(** ** The decision *)

Lemma handled_run e w chars :
  data e = Some chars -> chars <> "" ->
  handled w chars = true ->
  editOnBeforeInput e w =
    (Normal tt,
     {| editor := flushedEditor w;
        nativeSelection := nativeSelection (afterEntryFlush w);
        immediates := immediates (afterEntryFlush w);
        trace := trace (afterEntryFlush w)
                   ++ [CallHandleBeforeInput chars (currentState w);
                       PreventDefault] |}).
Proof.
  intros Hd Hne Hh. rewrite editOnBeforeInput_flush.
  apply path_handled; [apply afterEntryFlush_pending | assumption ..].
Qed.

Lemma handled_prevents e w chars :
  data e = Some chars -> chars <> "" ->
  handled w chars = true ->
  outcome (editOnBeforeInput e) w = Normal tt
  /\ callsPreventDefault (effects e w)
  /\ immediates (run (editOnBeforeInput e) w) = immediates (afterEntryFlush w).
Proof.
  intros Hd Hne Hh. unfold outcome, effects, run.
  rewrite (handled_run e w chars Hd Hne Hh). cbn [fst snd].
  rewrite effectsSince_app. repeat split. unfold callsPreventDefault. in_trace.
Qed.

(** A collapsed run that called [preventDefault] reached line 211 with
    [mustPreventNative] true. *)
Lemma collapsed_prevent_verdict e w chars :
  data e = Some chars -> chars <> "" ->
  handled w chars = false ->
  isCollapsed (getSelection (currentState w)) = true ->
  callsPreventDefault (effects e w) ->
  mustPreventNative w chars = Some true.
Proof.
  intros Hd Hne Hh Hc Hpd.
  destruct (mustPreventNative w chars) as [[|]|] eqn:Hv.
  - reflexivity.
  - destruct (collapsed_native e w chars Hd Hne Hh Hc Hv) as (_ & [Hno _] & _).
    contradiction.
  - destruct (collapsed_thrown e w chars Hd Hne Hh Hc Hv) as (_ & [Hno _] & _).
    contradiction.
Qed.


(** X9. Whenever the handler intercepts the insertion (a collapsed selection
    on which it calls [preventDefault], or a selection that is not collapsed
    and whose [currentlySelectedChars], the slice of the plain text of the
    whole document between the offsets of the selection, differs from the
    typed characters), the state it passes to [editor.update], and the only
    one, is the current state with the selection replaced by the character
    data, carrying the current inline style and the entity key for the
    selection, pushed as an ['insert-characters'] change. *)
Theorem interception_updates_with_replacement e w chars :
  data e = Some chars -> chars <> "" ->
  handled w chars = false ->
  (isCollapsed (getSelection (currentState w)) = true
   /\ callsPreventDefault (effects e w))
  \/ (isCollapsed (getSelection (currentState w)) = false
      /\ chars <> selectedChars (currentState w)) ->
  callsPreventDefault (effects e w)
  /\ (forall s,
        Update s ∈ effects e w <->
        s = EditorState_push (currentState w)
              (DraftModifier_replaceText
                 (getCurrentContent (currentState w))
                 (getSelection (currentState w))
                 chars
                 (getCurrentInlineStyle (currentState w))
                 (getEntityKeyForSelection
                    (getCurrentContent (currentState w))
                    (getSelection (currentState w))))
              "insert-characters")
  /\ editor (run (editOnBeforeInput e) w)
     = update (flushedEditor w)
         (EditorState_push (currentState w)
            (DraftModifier_replaceText
               (getCurrentContent (currentState w))
               (getSelection (currentState w))
               chars
               (getCurrentInlineStyle (currentState w))
               (getEntityKeyForSelection
                  (getCurrentContent (currentState w))
                  (getSelection (currentState w))))
            "insert-characters").
Proof.
  intros Hd Hne Hh [[Hc Hpd] | [Hc Hdiff]].
  - pose proof (collapsed_prevent_verdict e w chars Hd Hne Hh Hc Hpd) as Hv.
    destruct (collapsed_prevented e w chars Hd Hne Hh Hc Hv)
      as (_ & _ & Hup & Hed & _).
    split; [exact Hpd|]. split; [exact Hup | exact Hed].
  - destruct (not_collapsed_run e w chars Hd Hne Hh Hc) as (_ & Heff & Hed & _).
    assert (Hs : rerenderedState (currentState w) chars
                 = insertedState (currentState w) chars).
    { unfold rerenderedState. rewrite bool_decide_false; [reflexivity|exact Hdiff]. }
    rewrite Hs in Hed. split; [|split; [|exact Hed]].
    + unfold callsPreventDefault. rewrite Heff, !elem_of_app. right. left. in_trace.
    + intros s. rewrite (not_collapsed_updates e w chars s Hd Hne Hh Hc), Hs.
      reflexivity.
Qed.

(** ** The fingerprint check and the Firefox characters *)

Lemma verdict_fingerprint_changed w chars :
  ~ atLeafStart (flushedEditor w) ->
  ~ tabInSpanNode (nativeSelection w) ->
  fingerprintChanged (currentState w) (nextState w chars) (anchorBlock w) ->
  mustPreventNative w chars = Some true.
Proof.
  unfold atLeafStart, fingerprintChanged, mustPreventNative.
  intros Hl Ht Hf. rewrite <- tabInSpan_spec in Ht.
  destruct (isSelectionAtLeafStart _); [reflexivity|].
  destruct (tabInSpan _); [reflexivity|].
  rewrite bool_decide_false by exact Hf. reflexivity.
Qed.

Lemma verdict_fingerprint_same w chars :
  ~ atLeafStart (flushedEditor w) ->
  ~ tabInSpanNode (nativeSelection w) ->
  ~ fingerprintChanged (currentState w) (nextState w chars) (anchorBlock w) ->
  mustPreventNative w chars =
    if mustPreventDefaultForCharacter chars then Some true
    else
      match getDirectionMap (nextState w chars),
            getDirectionMap (currentState w) with
      | Some newMap, Some oldMap =>
          Some (negb (bool_decide
                        (newMap !! anchorBlock w = oldMap !! anchorBlock w)))
      | _, _ => None
      end.
Proof.
  unfold atLeafStart, fingerprintChanged, mustPreventNative.
  intros Hl Ht Hf. rewrite <- tabInSpan_spec in Ht.
  destruct (isSelectionAtLeafStart _); [congruence|].
  destruct (tabInSpan _); [congruence|].
  rewrite bool_decide_true; [reflexivity|].
  destruct (decide (BlockTree_getFingerprint
                      (getBlockTree (currentState w) (anchorBlock w))
                    = BlockTree_getFingerprint
                        (getBlockTree (nextState w chars) (anchorBlock w))));
    [assumption | contradiction].
Qed.

(** C4. With a collapsed selection and the leaf-start and tab-in-span
    heuristics both false: if the fingerprint of the anchor block in the
    state before the insertion differs from the one in the state after it,
    the handler prevents native insertion and re-renders; if the two are
    equal the fingerprint check does not prevent anything by itself: a
    prevention then comes from the Firefox characters or from a changed
    direction, and without either native insertion is allowed. *)
Theorem fingerprint_gate e w chars :
  data e = Some chars -> chars <> "" ->
  handled w chars = false ->
  isCollapsed (getSelection (currentState w)) = true ->
  ~ atLeafStart (flushedEditor w) ->
  ~ tabInSpanNode (nativeSelection w) ->
  (fingerprintChanged (currentState w) (nextState w chars) (anchorBlock w) ->
     callsPreventDefault (effects e w)
     /\ Update (nextState w chars) ∈ effects e w
     /\ ~ allowsNativeInsertion (effects e w))
  /\ (~ fingerprintChanged (currentState w) (nextState w chars) (anchorBlock w) ->
      (callsPreventDefault (effects e w) ->
         firefoxQuickfindChar chars
         \/ exists oldMap newMap,
              getDirectionMap (currentState w) = Some oldMap
              /\ getDirectionMap (nextState w chars) = Some newMap
              /\ directionChanged oldMap newMap (anchorBlock w))
      /\ (forall oldMap newMap,
            ~ firefoxQuickfindChar chars ->
            getDirectionMap (currentState w) = Some oldMap ->
            getDirectionMap (nextState w chars) = Some newMap ->
            ~ directionChanged oldMap newMap (anchorBlock w) ->
            allowsNativeInsertion (effects e w))).
Proof.
  intros Hd Hne Hh Hc Hl Ht. split.
  - intros Hf.
    pose proof (verdict_fingerprint_changed w chars Hl Ht Hf) as Hv.
    destruct (collapsed_prevented e w chars Hd Hne Hh Hc Hv) as (_ & Hpd & Hup & _).
    split; [exact Hpd|]. split; [apply Hup; reflexivity|].
    intros [Hno _]. contradiction.
  - intros Hf.
    pose proof (verdict_fingerprint_same w chars Hl Ht Hf) as Hv.
    pose proof (mustPreventDefaultForCharacter_spec chars) as Hff.
    split.
    + intros Hpd.
      rewrite (collapsed_prevent_verdict e w chars Hd Hne Hh Hc Hpd) in Hv.
      destruct (mustPreventDefaultForCharacter chars); [left; tauto|].
      destruct (getDirectionMap (nextState w chars)) as [newMap|]; [|discriminate].
      destruct (getDirectionMap (currentState w)) as [oldMap|]; [|discriminate].
      right. exists oldMap, newMap. split; [reflexivity|]. split; [reflexivity|].
      unfold directionChanged. injection Hv as Hv. symmetry in Hv.
      apply negb_true_iff, bool_decide_eq_false in Hv. exact Hv.
    + intros oldMap newMap Hnff Hold Hnew Hdir.
      rewrite Hold, Hnew in Hv.
      destruct (mustPreventDefaultForCharacter chars); [tauto|].
      unfold directionChanged in Hdir.
      rewrite bool_decide_true in Hv.
      * cbn [negb] in Hv.
        destruct (collapsed_native e w chars Hd Hne Hh Hc Hv) as (_ & Hnat & _).
        exact Hnat.
      * destruct (decide (newMap !! anchorBlock w = oldMap !! anchorBlock w));
          [assumption | contradiction].
Qed.

(** C5. [mustPreventDefaultForCharacter] returns true exactly when the
    browser is Firefox ([UserAgent.isBrowser('Firefox')]) and the character
    is ['] or [/].  So on Firefox an event that carries ['] or [/] with a
    collapsed selection never results in native insertion: the handler calls
    [preventDefault] and queues no callback.  On any other browser the
    function is false for every character, and ['] and [/] are inserted
    natively like any other character when no other heuristic holds. *)
Theorem firefox_quickfind_prevented e w chars :
  (mustPreventDefaultForCharacter chars = true
   <-> UserAgent_isBrowser "Firefox" = true /\ (chars = "'" \/ chars = "/"))
  /\ (UserAgent_isBrowser "Firefox" = true -> chars = "'" \/ chars = "/" ->
      data e = Some chars ->
      isCollapsed (getSelection (currentState w)) = true ->
      outcome (editOnBeforeInput e) w = Normal tt
      /\ callsPreventDefault (effects e w)
      /\ ~ allowsNativeInsertion (effects e w)
      /\ immediates (run (editOnBeforeInput e) w) = immediates w)
  /\ (UserAgent_isBrowser "Firefox" = false ->
      mustPreventDefaultForCharacter chars = false
      /\ (forall oldMap newMap,
            data e = Some chars -> chars <> "" ->
            handled w chars = false ->
            isCollapsed (getSelection (currentState w)) = true ->
            ~ atLeafStart (flushedEditor w) ->
            ~ tabInSpanNode (nativeSelection w) ->
            ~ fingerprintChanged (currentState w) (nextState w chars)
                (anchorBlock w) ->
            getDirectionMap (currentState w) = Some oldMap ->
            getDirectionMap (nextState w chars) = Some newMap ->
            ~ directionChanged oldMap newMap (anchorBlock w) ->
            allowsNativeInsertion (effects e w))).
Proof.
  assert (Hspec : mustPreventDefaultForCharacter chars = true
                  <-> UserAgent_isBrowser "Firefox" = true
                      /\ (chars = "'" \/ chars = "/")).
  { pose proof (mustPreventDefaultForCharacter_spec chars) as H.
    unfold firefoxQuickfindChar, isFirefox in H. exact H. }
  split; [exact Hspec|]. split.
  - intros Hff Hch Hd Hc.
    assert (Hne : chars <> "") by (destruct Hch as [-> | ->]; discriminate).
    assert (Hq : mustPreventDefaultForCharacter chars = true).
    { apply Hspec. split; assumption. }
    assert (Hgoal : outcome (editOnBeforeInput e) w = Normal tt
                    /\ callsPreventDefault (effects e w)
                    /\ immediates (run (editOnBeforeInput e) w)
                       = immediates (afterEntryFlush w)).
    { destruct (handled w chars) eqn:Hh.
      - apply (handled_prevents e w chars Hd Hne Hh).
      - assert (Hv : mustPreventNative w chars = Some true).
        { unfold mustPreventNative. rewrite Hq.
          repeat match goal with
                 | |- (if ?b then _ else _) = _ => destruct b; try reflexivity
                 end. }
        destruct (collapsed_prevented e w chars Hd Hne Hh Hc Hv)
          as (Ho & Hpd & _ & _ & Himm).
        auto. }
    destruct Hgoal as (Ho & Hpd & Himm).
    split; [exact Ho|]. split; [exact Hpd|]. split.
    + intros [Hno _]. contradiction.
    + rewrite Himm. apply afterEntryFlush_immediates.
  - intros Hnf.
    assert (Hq : mustPreventDefaultForCharacter chars = false).
    { destruct (mustPreventDefaultForCharacter chars) eqn:Hq; [|reflexivity].
      destruct (proj1 Hspec eq_refl) as [Hff _]. congruence. }
    split; [exact Hq|].
    intros oldMap newMap Hd Hne Hh Hc Hl Ht Hf Hold Hnew Hdir.
    pose proof (verdict_fingerprint_same w chars Hl Ht Hf) as Hv.
    rewrite Hq, Hnew, Hold in Hv. unfold directionChanged in Hdir.
    rewrite bool_decide_true in Hv.
    + cbn [negb] in Hv.
      apply (collapsed_native e w chars Hd Hne Hh Hc Hv).
    + destruct (decide (newMap !! anchorBlock w = oldMap !! anchorBlock w));
        [assumption | contradiction].
Qed.

(** ** The trace of a run *)

(** The flush adds the update of the pending state, if there is one. *)
Lemma entry_flush_trace w :
  trace (afterEntryFlush w)
  = trace w ++ match _pendingStateFromBeforeInput (editor w) with
               | Some pending => [Update pending]
               | None => []
               end.
Proof.
  destruct (_pendingStateFromBeforeInput (editor w)) as [p|] eqn:Hp.
  - rewrite (afterEntryFlush_some _ _ Hp). reflexivity.
  - rewrite (afterEntryFlush_none _ Hp), app_nil_r. reflexivity.
Qed.

(** Every run extends the trace of the flushed world by its [effects]. *)
Lemma trace_effects e w :
  trace (run (editOnBeforeInput e) w) = trace (afterEntryFlush w) ++ effects e w.
Proof.
  assert (Hshape : forall c (ed : DraftEditor) dom imm (evs : list Effect),
            editOnBeforeInput e w
            = (c, {| editor := ed; nativeSelection := dom; immediates := imm;
                     trace := trace (afterEntryFlush w) ++ evs |}) ->
            trace (run (editOnBeforeInput e) w)
            = trace (afterEntryFlush w) ++ effects e w).
  { intros c ed dom imm evs Heq. unfold effects, run. rewrite Heq.
    cbn [fst snd]. rewrite effectsSince_app. reflexivity. }
  assert (Hnone : data e = None \/ data e = Some "" ->
            trace (run (editOnBeforeInput e) w)
            = trace (afterEntryFlush w) ++ effects e w).
  { intros Hd. rewrite (no_data_effects e w Hd), app_nil_r.
    unfold run. rewrite (no_data_run e w Hd). reflexivity. }
  destruct (data e) as [chars|] eqn:Hd; [|apply Hnone; left; reflexivity].
  destruct (decide (chars = "")) as [-> | Hne]; [apply Hnone; right; reflexivity|].
  destruct (handled w chars) eqn:Hh.
  { eapply Hshape. apply (handled_run e w chars Hd Hne Hh). }
  destruct (isCollapsed (getSelection (currentState w))) eqn:Hc.
  - destruct (collapsed_run e w chars Hd Hne Hh Hc) as (checks & _ & _ & Heq).
    destruct (mustPreventNative w chars) as [[|]|]; eapply Hshape; exact Heq.
  - pose proof (path_not_collapsed e (afterEntryFlush w) chars
                  (afterEntryFlush_pending w) Hd Hne Hh Hc) as Heq.
    rewrite <- editOnBeforeInput_flush in Heq. eapply Hshape. exact Heq.
Qed.

(** ** The order of the checks *)

Lemma evaluated_app (a b : list Effect) :
  evaluated (a ++ b) = evaluated a ++ evaluated b.
Proof. unfold evaluated. apply omap_app. Qed.

Lemma evaluated_propCall (ed : DraftEditor) chars (es : EditorState) :
  evaluated (propCall ed chars es) = [].
Proof. unfold propCall. destruct (handleBeforeInput (props ed)); reflexivity. Qed.

Lemma evaluatedInOrder_nil (order : list Heuristic) : evaluatedInOrder order [].
Proof.
  split; [reflexivity|]. intros i hb Hl. rewrite lookup_nil in Hl. discriminate.
Qed.

Lemma collapsed_evaluated e w chars :
  data e = Some chars -> chars <> "" ->
  handled w chars = false ->
  isCollapsed (getSelection (currentState w)) = true ->
  evaluatedInOrder sourceOrder (evaluated (effects e w)).
Proof.
  intros Hd Hne Hh Hc.
  destruct (collapsed_run e w chars Hd Hne Hh Hc) as (checks & _ & Hord & Heq).
  unfold effects, run. rewrite Heq.
  destruct (mustPreventNative w chars) as [[|]|];
    cbn [fst snd]; rewrite effectsSince_app;
    rewrite !evaluated_app, evaluated_propCall; cbn [app];
    change (evaluated [Evaluated SelectionCollapsed false;
                       CallReplaceText chars (currentState w)])
      with [(SelectionCollapsed, false)];
    cbn [app];
    rewrite ?(app_nil_r (evaluated checks));
    try exact Hord.
  change (evaluated [PreventDefault; Update (nextState w chars)])
    with (@nil (Heuristic * bool)).
  rewrite app_nil_r. exact Hord.
Qed.

(** C7, as the source has it.  The heuristics are evaluated in the order
    selection collapsed, leaf start, tab in span, fingerprint changed,
    Firefox quickfind character, direction changed; the handler evaluates
    an initial segment of this sequence, and each check is reached only when
    every earlier one left native insertion allowed. *)
Theorem heuristics_follow_source_order e w :
  evaluatedInOrder sourceOrder (evaluated (effects e w)).
Proof.
  destruct (data e) as [chars|] eqn:Hd.
  - destruct (decide (chars = "")) as [-> | Hne].
    + rewrite (no_data_effects e w (or_intror Hd)).
      apply evaluatedInOrder_nil.
    + destruct (handled w chars) eqn:Hh.
      * unfold effects, run. rewrite (handled_run e w chars Hd Hne Hh).
        cbn [fst snd]. rewrite effectsSince_app. apply evaluatedInOrder_nil.
      * destruct (isCollapsed (getSelection (currentState w))) eqn:Hc.
        -- apply (collapsed_evaluated e w chars Hd Hne Hh Hc).
        -- destruct (not_collapsed_run e w chars Hd Hne Hh Hc) as (_ & -> & _).
           rewrite !evaluated_app, evaluated_propCall.
           replace (evaluated
                      (if bool_decide (chars = selectedChars (currentState w))
                       then [] else [CallReplaceText chars (currentState w)]))
             with (@nil (Heuristic * bool)) by (case_bool_decide; reflexivity).
           cbn. in_order.
  - rewrite (no_data_effects e w (or_introl Hd)).
    apply evaluatedInOrder_nil.
Qed.

(** ** The native path and the pending state *)

Lemma applyPendingState_some w pending :
  _pendingStateFromBeforeInput (editor w) = Some pending ->
  runCallback ApplyPendingState w = (Normal tt, applied pending w)
  /\ afterEntryFlush w = applied pending w
  /\ _pendingStateFromBeforeInput (editor (applied pending w)) = None.
Proof.
  intros Hp. unfold runCallback, function.
  rewrite applyPendingState_normal, (afterEntryFlush_some w pending Hp).
  repeat split; reflexivity.
Qed.

Lemma applyPendingState_none w :
  _pendingStateFromBeforeInput (editor w) = None ->
  runCallback ApplyPendingState w = (Normal tt, w) /\ afterEntryFlush w = w.
Proof.
  intros Hp. unfold runCallback, function.
  rewrite applyPendingState_normal, (afterEntryFlush_none w Hp).
  split; reflexivity.
Qed.

(** C8. On the native path (non-empty character data, the handler returns
    normally without [preventDefault]) the handler makes no [editor.update]
    of its own: the state after the insertion, with [nativelyRenderedContent]
    set to its content, is stored in [_pendingStateFromBeforeInput] and the
    callback is queued.  The state is applied later, by the callback or by
    the flush that opens the next invocation; either one hands it to
    [editor.update] and resets the field, after which the other finds
    nothing pending and does nothing. *)
Theorem native_path_defers_update e w chars :
  data e = Some chars -> chars <> "" ->
  outcome (editOnBeforeInput e) w = Normal tt ->
  ~ callsPreventDefault (effects e w) ->
  ~ updatesEditor (effects e w)
  /\ editor (run (editOnBeforeInput e) w)
     = set_pendingStateFromBeforeInput
         (Some (nativelyRendered (nextState w chars))) (flushedEditor w)
  /\ immediates (run (editOnBeforeInput e) w) = immediates w ++ [ApplyPendingState]
  /\ runCallback ApplyPendingState (run (editOnBeforeInput e) w)
     = (Normal tt,
        applied (nativelyRendered (nextState w chars))
          (run (editOnBeforeInput e) w))
  /\ (forall e',
        editOnBeforeInput e' (run (editOnBeforeInput e) w)
        = editOnBeforeInput e'
            (applied (nativelyRendered (nextState w chars))
               (run (editOnBeforeInput e) w)))
  /\ _pendingStateFromBeforeInput
       (editor (applied (nativelyRendered (nextState w chars))
                  (run (editOnBeforeInput e) w))) = None
  /\ runCallback ApplyPendingState
       (applied (nativelyRendered (nextState w chars))
          (run (editOnBeforeInput e) w))
     = (Normal tt,
        applied (nativelyRendered (nextState w chars))
          (run (editOnBeforeInput e) w))
  /\ afterEntryFlush
       (applied (nativelyRendered (nextState w chars))
          (run (editOnBeforeInput e) w))
     = applied (nativelyRendered (nextState w chars))
         (run (editOnBeforeInput e) w).
Proof.
  intros Hd Hne Ho Hno.
  destruct (handled w chars) eqn:Hh.
  { destruct (handled_prevents e w chars Hd Hne Hh) as (_ & Hpd & _).
    contradiction. }
  destruct (isCollapsed (getSelection (currentState w))) eqn:Hc; cycle 1.
  { pose proof (not_collapsed_prevents e w chars Hd Hne Hh Hc) as Hpd.
    contradiction. }
  destruct (mustPreventNative w chars) as [[|]|] eqn:Hv.
  { destruct (collapsed_prevented e w chars Hd Hne Hh Hc Hv) as (_ & Hpd & _).
    contradiction. }
  2:{ destruct (collapsed_thrown e w chars Hd Hne Hh Hc Hv) as (Hthrown & _).
      congruence. }
  destruct (collapsed_native e w chars Hd Hne Hh Hc Hv)
    as (_ & [_ Hnoup] & Hed & Himm).
  assert (Hp : _pendingStateFromBeforeInput (editor (run (editOnBeforeInput e) w))
               = Some (nativelyRendered (nextState w chars))).
  { rewrite Hed. reflexivity. }
  destruct (applyPendingState_some _ _ Hp) as (Hcb & Hflush & Hreset).
  destruct (applyPendingState_none _ Hreset) as (Hcb' & Hflush').
  split; [exact Hnoup|]. split; [exact Hed|]. split.
  { rewrite Himm, afterEntryFlush_immediates. reflexivity. }
  split; [exact Hcb|]. split.
  { intros e'. rewrite <- Hflush. apply editOnBeforeInput_flush. }
  split; [exact Hreset|]. split; [exact Hcb' | exact Hflush'].
Qed.

(** * Further properties of the handler *)

(** The five ways through the handler: no data (absent or empty), handled
    by the prop, collapsed selection, selection not collapsed. *)
Ltac handler_cases e w :=
  let chars := fresh "chars" in
  destruct (data e) as [chars|] eqn:Hd;
  [ destruct (decide (chars = "")) as [Hempty | Hne];
    [ subst chars
    | destruct (handled w chars) eqn:Hh;
      [ | destruct (isCollapsed (getSelection (currentState w))) eqn:Hc ] ]
  | ].

Lemma omap_none {B} (f : Effect -> option B) (evs : list Effect) :
  (forall ev, ev ∈ evs -> f ev = None) -> omap f evs = [].
Proof.
  induction evs as [|ev evs IH]; intros Hall; [reflexivity|].
  cbn. rewrite (Hall ev) by apply list_elem_of_here.
  apply IH. intros ev' Hin. apply Hall, list_elem_of_further, Hin.
Qed.

(** A projection of the trace that ignores everything but [preventDefault]
    and [editor.update] sees nothing of a collapsed run before the verdict. *)
Lemma omap_gate {B} (f : Effect -> option B) (ed : DraftEditor) chars
    (es : EditorState) (checks rest : list Effect) :
  (forall ev, quiet ev -> f ev = None) ->
  Forall isCheck checks ->
  omap f (propCall ed chars es
            ++ [Evaluated SelectionCollapsed false; CallReplaceText chars es]
            ++ checks ++ rest)
  = omap f rest.
Proof.
  intros Hf Hall. rewrite !app_assoc, omap_app, <- !app_assoc.
  rewrite omap_none; [reflexivity|].
  intros ev Hin. apply Hf.
  rewrite <- (app_nil_r checks) in Hin.
  apply (gate_trace_inv _ _ _ _ _ _ Hall) in Hin as [Hq | Hin]; [exact Hq|].
  apply elem_of_nil in Hin. contradiction.
Qed.

Lemma updatesOf_quiet (ev : Effect) :
  quiet ev ->
  match ev with Update s => Some s | _ => None end = None.
Proof. intros [_ Hq]. destruct ev; try reflexivity. exfalso. exact (Hq s eq_refl). Qed.

Lemma preventDefault_quiet (ev : Effect) :
  quiet ev ->
  match ev with PreventDefault => Some tt | _ => None end = None.
Proof. intros [Hq _]. destruct ev; try reflexivity. congruence. Qed.

Lemma propCall_quiet_omap {B} (f : Effect -> option B) (ed : DraftEditor) chars
    (es : EditorState) :
  (forall ev, quiet ev -> f ev = None) ->
  omap f (propCall ed chars es) = [].
Proof.
  intros Hf. apply omap_none. intros ev Hin. apply Hf.
  apply propCall_only in Hin. subst ev. split; [|intros s]; discriminate.
Qed.

(** The verdict is missing exactly when the first four checks pass and a
    direction map is [null]. *)
Lemma mustPreventNative_none w chars :
  mustPreventNative w chars = None <->
  ~ atLeafStart (flushedEditor w)
  /\ ~ tabInSpanNode (nativeSelection w)
  /\ ~ fingerprintChanged (currentState w) (nextState w chars) (anchorBlock w)
  /\ ~ firefoxQuickfindChar chars
  /\ (getDirectionMap (nextState w chars) = None
      \/ getDirectionMap (currentState w) = None).
Proof.
  unfold mustPreventNative, atLeafStart, fingerprintChanged.
  pose proof (tabInSpan_spec (nativeSelection w)) as Htab.
  pose proof (mustPreventDefaultForCharacter_spec chars) as Hff.
  destruct (isSelectionAtLeafStart _); [split; [discriminate | tauto]|].
  destruct (tabInSpan _); [split; [discriminate | tauto]|].
  case_bool_decide as Hf; cbn [negb]; [|split; [discriminate | tauto]].
  destruct (mustPreventDefaultForCharacter chars);
    [split; [discriminate | tauto]|].
  assert (Hno : ~ firefoxQuickfindChar chars)
    by (intros H; apply Hff in H; discriminate).
  assert (Hnt : ~ tabInSpanNode (nativeSelection w))
    by (intros H; apply Htab in H; discriminate).
  destruct (getDirectionMap (nextState w chars)) as [newMap|];
    [destruct (getDirectionMap (currentState w)) as [oldMap|]|].
  - split; [discriminate|]. intros (_ & _ & _ & _ & [H | H]); discriminate.
  - split; [|reflexivity]. intros _.
    repeat (split; [first [discriminate | assumption | tauto]|]). right. reflexivity.
  - split; [|reflexivity]. intros _.
    repeat (split; [first [discriminate | assumption | tauto]|]). left. reflexivity.
Qed.

(** A run that completes normally without [preventDefault], on an event
    with data, went through the gate with every check passed. *)
Lemma native_path_verdict e w chars :
  data e = Some chars -> chars <> "" ->
  outcome (editOnBeforeInput e) w = Normal tt ->
  ~ callsPreventDefault (effects e w) ->
  handled w chars = false
  /\ isCollapsed (getSelection (currentState w)) = true
  /\ mustPreventNative w chars = Some false.
Proof.
  intros Hd Hne Ho Hno.
  destruct (handled w chars) eqn:Hh.
  { destruct (handled_prevents e w chars Hd Hne Hh) as (_ & Hpd & _).
    contradiction. }
  destruct (isCollapsed (getSelection (currentState w))) eqn:Hc; cycle 1.
  { pose proof (not_collapsed_prevents e w chars Hd Hne Hh Hc). contradiction. }
  destruct (mustPreventNative w chars) as [[|]|] eqn:Hv.
  - destruct (collapsed_prevented e w chars Hd Hne Hh Hc Hv) as (_ & Hpd & _).
    contradiction.
  - auto.
  - destruct (collapsed_thrown e w chars Hd Hne Hh Hc Hv) as (Hthrown & _).
    congruence.
Qed.

Lemma substring_length_le (s : string) (n m : nat) :
  String.length (String.substring n m s) <= m.
Proof.
  revert n m. induction s as [|c s IH]; intros [|n] [|m]; cbn; try lia.
  - specialize (IH 0 m). lia.
  - specialize (IH n 0). lia.
  - specialize (IH n (S m)). lia.
Qed.

(** X1. Whatever the event, the trace of an invocation is the trace at
    entry, then the update of the state that was pending (if one was), then
    the effects of the event: a pending state is never dropped and is applied
    before the handler looks at the event. *)
Theorem pending_state_applied_first e w :
  trace (run (editOnBeforeInput e) w)
  = trace w
      ++ match _pendingStateFromBeforeInput (editor w) with
         | Some pending => [Update pending]
         | None => []
         end
      ++ effects e w.
Proof. rewrite trace_effects, entry_flush_trace, app_assoc. reflexivity. Qed.

(** X2. After the entry flush an invocation calls [preventDefault] at most
    once and [editor.update] at most once; it never updates the editor
    without having prevented the default action, and it prevents the default
    action without updating only when the prop handled the event. *)
Theorem rerender_only_with_default_prevented e w :
  preventDefaultCalls (effects e w) <= 1
  /\ length (updatesOf (effects e w)) <= 1
  /\ (updatesEditor (effects e w) -> callsPreventDefault (effects e w))
  /\ (callsPreventDefault (effects e w) ->
      updatesEditor (effects e w)
      \/ exists chars, data e = Some chars /\ handled w chars = true).
Proof.
  assert (Hnone : data e = None \/ data e = Some "" ->
            preventDefaultCalls (effects e w) <= 1
            /\ length (updatesOf (effects e w)) <= 1
            /\ (updatesEditor (effects e w) -> callsPreventDefault (effects e w))
            /\ (callsPreventDefault (effects e w) ->
                updatesEditor (effects e w)
                \/ exists chars, data e = Some chars /\ handled w chars = true)).
  { intros Hd. rewrite (no_data_effects e w Hd).
    split; [cbn; lia|]. split; [cbn; lia|]. split.
    - intros [s Hin]. apply elem_of_nil in Hin. contradiction.
    - intros Hin. apply elem_of_nil in Hin. contradiction. }
  handler_cases e w.
  - apply Hnone. right. reflexivity.
  - (* handled by the prop *)
    assert (Heff : effects e w
                   = [CallHandleBeforeInput chars (currentState w); PreventDefault]).
    { unfold effects, run. rewrite (handled_run e w chars Hd Hne Hh).
      apply effectsSince_app. }
    rewrite Heff. split; [cbn; lia|]. split; [cbn; lia|]. split.
    + intros _. unfold callsPreventDefault. in_trace.
    + intros _. right. exists chars. auto.
  - (* collapsed *)
    destruct (collapsed_run e w chars Hd Hne Hh Hc) as (checks & Hall & _ & Heq).
    assert (Hcount : forall rest,
              preventDefaultCalls
                (propCall (flushedEditor w) chars (currentState w)
                   ++ [Evaluated SelectionCollapsed false;
                       CallReplaceText chars (currentState w)]
                   ++ checks ++ rest)
              = preventDefaultCalls rest
              /\ updatesOf
                   (propCall (flushedEditor w) chars (currentState w)
                      ++ [Evaluated SelectionCollapsed false;
                          CallReplaceText chars (currentState w)]
                      ++ checks ++ rest)
                 = updatesOf rest).
    { intros rest. unfold preventDefaultCalls, updatesOf.
      rewrite !omap_gate by (first [apply preventDefault_quiet
                                   | apply updatesOf_quiet
                                   | exact Hall]).
      split; reflexivity. }
    destruct (mustPreventNative w chars) as [[|]|] eqn:Hv.
    + destruct (collapsed_prevented e w chars Hd Hne Hh Hc Hv)
        as (_ & Hpd & Hup & _).
      unfold effects, run. unfold effects, run in Hpd, Hup. rewrite Heq in *.
      cbn [fst snd] in *. rewrite effectsSince_app in *.
      destruct (Hcount [PreventDefault; Update (nextState w chars)]) as [-> ->].
      split; [cbn; lia|]. split; [cbn; lia|]. split; [intros _; exact Hpd|].
      intros _. left. exists (nextState w chars). apply Hup. reflexivity.
    + destruct (collapsed_native e w chars Hd Hne Hh Hc Hv) as (_ & [Hnp Hnu] & _).
      unfold effects, run. unfold effects, run in Hnp, Hnu. rewrite Heq in *.
      cbn [fst snd] in *. rewrite effectsSince_app in *.
      destruct (Hcount []) as [Hc1 Hc2]. rewrite !app_nil_r in Hc1, Hc2.
      rewrite Hc1, Hc2. split; [cbn; lia|]. split; [cbn; lia|].
      split; intros H; contradiction.
    + destruct (collapsed_thrown e w chars Hd Hne Hh Hc Hv) as (_ & [Hnp Hnu] & _).
      unfold effects, run. unfold effects, run in Hnp, Hnu. rewrite Heq in *.
      cbn [fst snd] in *. rewrite effectsSince_app in *.
      destruct (Hcount []) as [Hc1 Hc2]. rewrite !app_nil_r in Hc1, Hc2.
      rewrite Hc1, Hc2. split; [cbn; lia|]. split; [cbn; lia|].
      split; intros H; contradiction.
  - (* not collapsed *)
    pose proof (not_collapsed_prevents e w chars Hd Hne Hh Hc) as Hpd.
    pose proof (not_collapsed_updates e w chars
                  (rerenderedState (currentState w) chars) Hd Hne Hh Hc) as Hup.
    destruct (not_collapsed_run e w chars Hd Hne Hh Hc) as (_ & Heff & _).
    split; [|split; [|split]].
    + rewrite Heff. unfold preventDefaultCalls.
      rewrite !omap_app, propCall_quiet_omap by apply preventDefault_quiet.
      case_bool_decide; cbn; lia.
    + rewrite Heff. unfold updatesOf.
      rewrite !omap_app, propCall_quiet_omap by apply updatesOf_quiet.
      case_bool_decide; cbn; lia.
    + intros _. exact Hpd.
    + intros _. left. eexists. apply Hup. reflexivity.
  - apply Hnone. left. reflexivity.
Qed.

(** How an invocation leaves the pending state and the queue. *)
Lemma run_pending_cases e w :
  (forall ed s,
     _pendingStateFromBeforeInput (update ed s) = _pendingStateFromBeforeInput ed) ->
  (_pendingStateFromBeforeInput (editor (run (editOnBeforeInput e) w)) = None
   /\ immediates (run (editOnBeforeInput e) w) = immediates w)
  \/ (exists chars,
        data e = Some chars
        /\ _pendingStateFromBeforeInput (editor (run (editOnBeforeInput e) w))
           = Some (nativelyRendered (nextState w chars))
        /\ immediates (run (editOnBeforeInput e) w)
           = immediates w ++ [ApplyPendingState]).
Proof.
  intros Hlaw.
  pose proof (afterEntryFlush_pending w) as Hflushed.
  pose proof (afterEntryFlush_immediates w) as Himm0.
  assert (Hnone : data e = None \/ data e = Some "" ->
            _pendingStateFromBeforeInput
              (editor (run (editOnBeforeInput e) w)) = None
            /\ immediates (run (editOnBeforeInput e) w) = immediates w).
  { intros Hd. unfold run. rewrite (no_data_run e w Hd). cbn [snd]. auto. }
  handler_cases e w.
  - left. apply Hnone. right. reflexivity.
  - left. unfold run. rewrite (handled_run e w chars Hd Hne Hh). cbn.
    split; [exact Hflushed | exact Himm0].
  - destruct (mustPreventNative w chars) as [[|]|] eqn:Hv.
    + destruct (collapsed_prevented e w chars Hd Hne Hh Hc Hv)
        as (_ & _ & _ & Hed & Himm).
      left. rewrite Hed, Hlaw, Himm. split; [exact Hflushed | exact Himm0].
    + destruct (collapsed_native e w chars Hd Hne Hh Hc Hv)
        as (_ & _ & Hed & Himm).
      right. exists chars. rewrite Hed, Himm, Himm0. auto.
    + destruct (collapsed_thrown e w chars Hd Hne Hh Hc Hv)
        as (_ & _ & Hed & Himm).
      left. rewrite Hed, Himm. split; [exact Hflushed | exact Himm0].
  - destruct (not_collapsed_run e w chars Hd Hne Hh Hc) as (_ & _ & Hed & Himm).
    left. rewrite Hed, Hlaw, Himm. split; [exact Hflushed | exact Himm0].
  - left. apply Hnone. left. reflexivity.
Qed.

(** X3. When [editor.update] leaves [_pendingStateFromBeforeInput] alone,
    an invocation ends in one of two ways: nothing is pending and the queue
    of immediates is as it was, or the state after the insertion is pending
    and exactly one callback has been added to the queue.  The handler
    never leaves a state pending without a callback to apply it, and never
    queues a callback without a state for it. *)
Theorem pending_state_iff_callback_queued e w :
  (forall ed s,
     _pendingStateFromBeforeInput (update ed s) = _pendingStateFromBeforeInput ed) ->
  (_pendingStateFromBeforeInput (editor (run (editOnBeforeInput e) w)) = None
   /\ immediates (run (editOnBeforeInput e) w) = immediates w)
  \/ (exists chars,
        data e = Some chars
        /\ _pendingStateFromBeforeInput (editor (run (editOnBeforeInput e) w))
           = Some (nativelyRendered (nextState w chars))
        /\ immediates (run (editOnBeforeInput e) w)
           = immediates w ++ [ApplyPendingState]).
Proof. apply run_pending_cases. Qed.

(** X4. The handler throws in one situation only: the event has data, the
    prop does not handle it, the selection is collapsed, the leaf-start,
    tab, fingerprint and Firefox checks all pass, and the direction map of
    the new or of the old state is [null].  In every other case it returns
    normally; in particular it never throws when both maps are there. *)
Theorem throws_only_on_missing_direction_map e w :
  outcome (editOnBeforeInput e) w <> Normal tt
  <-> exists chars,
        data e = Some chars /\ chars <> ""
        /\ handled w chars = false
        /\ isCollapsed (getSelection (currentState w)) = true
        /\ ~ atLeafStart (flushedEditor w)
        /\ ~ tabInSpanNode (nativeSelection w)
        /\ ~ fingerprintChanged (currentState w) (nextState w chars) (anchorBlock w)
        /\ ~ firefoxQuickfindChar chars
        /\ (getDirectionMap (nextState w chars) = None
            \/ getDirectionMap (currentState w) = None).
Proof.
  split.
  - intros Ho. handler_cases e w.
    + exfalso. apply Ho. unfold outcome.
      rewrite (no_data_run e w (or_intror Hd)). reflexivity.
    + exfalso. apply Ho. apply (handled_prevents e w chars Hd Hne Hh).
    + destruct (mustPreventNative w chars) as [[|]|] eqn:Hv.
      * exfalso. apply Ho. apply (collapsed_prevented e w chars Hd Hne Hh Hc Hv).
      * exfalso. apply Ho. apply (collapsed_native e w chars Hd Hne Hh Hc Hv).
      * exists chars. apply mustPreventNative_none in Hv. tauto.
    + exfalso. apply Ho. apply (not_collapsed_run e w chars Hd Hne Hh Hc).
    + exfalso. apply Ho. unfold outcome.
      rewrite (no_data_run e w (or_introl Hd)). reflexivity.
  - intros (chars & Hd & Hne & Hh & Hc & Hl & Ht & Hf & Hq & Hmap).
    assert (Hv : mustPreventNative w chars = None)
      by (apply mustPreventNative_none; tauto).
    destruct (collapsed_thrown e w chars Hd Hne Hh Hc Hv) as (Hthrown & _).
    rewrite Hthrown. discriminate.
Qed.

(** X5. When the handler throws, it has called neither [preventDefault] nor
    [editor.update] for the event, has stored no pending state and has
    queued no callback: the editor and the queue are those of the flushed
    world, so the browser inserts the character while the model keeps the
    old state. *)
Theorem throw_leaves_insertion_to_browser e w :
  outcome (editOnBeforeInput e) w <> Normal tt ->
  allowsNativeInsertion (effects e w)
  /\ editor (run (editOnBeforeInput e) w) = flushedEditor w
  /\ _pendingStateFromBeforeInput (editor (run (editOnBeforeInput e) w)) = None
  /\ immediates (run (editOnBeforeInput e) w) = immediates w.
Proof.
  intros Ho. handler_cases e w.
  - exfalso. apply Ho. unfold outcome.
    rewrite (no_data_run e w (or_intror Hd)). reflexivity.
  - exfalso. apply Ho. apply (handled_prevents e w chars Hd Hne Hh).
  - destruct (mustPreventNative w chars) as [[|]|] eqn:Hv.
    + exfalso. apply Ho. apply (collapsed_prevented e w chars Hd Hne Hh Hc Hv).
    + exfalso. apply Ho. apply (collapsed_native e w chars Hd Hne Hh Hc Hv).
    + destruct (collapsed_thrown e w chars Hd Hne Hh Hc Hv)
        as (_ & Hnat & Hed & Himm).
      split; [exact Hnat|]. split; [exact Hed|]. split.
      * rewrite Hed. apply afterEntryFlush_pending.
      * rewrite Himm. apply afterEntryFlush_immediates.
  - exfalso. apply Ho. apply (not_collapsed_run e w chars Hd Hne Hh Hc).
  - exfalso. apply Ho. unfold outcome.
    rewrite (no_data_run e w (or_introl Hd)). reflexivity.
Qed.

(** X6. With a selection that is not collapsed, typed characters that are
    longer than the distance from the start offset to the end offset (in
    particular any characters when the end offset is not beyond the start
    offset) are never taken for the selected text: the handler computes the
    replacement and passes it, and nothing else, to [editor.update]. *)
Theorem longer_text_always_replaces e w chars :
  data e = Some chars -> chars <> "" ->
  handled w chars = false ->
  isCollapsed (getSelection (currentState w)) = false ->
  getEndOffset (getSelection (currentState w))
    - getStartOffset (getSelection (currentState w)) < String.length chars ->
  CallReplaceText chars (currentState w) ∈ effects e w
  /\ (forall s, Update s ∈ effects e w <-> s = insertedState (currentState w) chars)
  /\ editor (run (editOnBeforeInput e) w)
     = update (flushedEditor w) (insertedState (currentState w) chars).
Proof.
  intros Hd Hne Hh Hc Hlen.
  assert (Hdiff : chars <> selectedChars (currentState w)).
  { intros Heq. rewrite Heq in Hlen. unfold selectedChars, slice in Hlen.
    pose proof (substring_length_le
                  (getPlainText (getCurrentContent (currentState w)))
                  (getStartOffset (getSelection (currentState w)))
                  (getEndOffset (getSelection (currentState w))
                   - getStartOffset (getSelection (currentState w)))).
    lia. }
  assert (Hs : rerenderedState (currentState w) chars
               = insertedState (currentState w) chars).
  { unfold rerenderedState. rewrite bool_decide_false; [reflexivity|exact Hdiff]. }
  destruct (not_collapsed_run e w chars Hd Hne Hh Hc) as (_ & Heff & Hed & _).
  split; [|split].
  - rewrite Heff, bool_decide_false by exact Hdiff.
    rewrite !elem_of_app. right. right. left. in_trace.
  - intros s. rewrite (not_collapsed_updates e w chars s Hd Hne Hh Hc), Hs.
    reflexivity.
  - rewrite Hed, Hs. reflexivity.
Qed.

(** X7. Two insertions in a row, when [editor.update] records the state it
    is given as the latest one: after a native insertion, the next
    invocation, whatever its event, first applies the state the insertion
    left pending and then works on that very state, so the second insertion
    is computed on top of the first. *)
Theorem consecutive_insertions_compose e1 e2 w c1 :
  (forall ed s, _latestEditorState (update ed s) = s) ->
  data e1 = Some c1 -> c1 <> "" ->
  outcome (editOnBeforeInput e1) w = Normal tt ->
  ~ callsPreventDefault (effects e1 w) ->
  currentState (run (editOnBeforeInput e1) w) = nativelyRendered (nextState w c1)
  /\ trace (run (editOnBeforeInput e2) (run (editOnBeforeInput e1) w))
     = trace (run (editOnBeforeInput e1) w)
         ++ Update (nativelyRendered (nextState w c1))
         :: effects e2 (run (editOnBeforeInput e1) w)
  /\ (forall c2,
        nextState (run (editOnBeforeInput e1) w) c2
        = insertedState (nativelyRendered (nextState w c1)) c2).
Proof.
  intros Hlaw Hd Hne Ho Hno.
  destruct (native_path_verdict e1 w c1 Hd Hne Ho Hno) as (Hh & Hc & Hv).
  destruct (collapsed_native e1 w c1 Hd Hne Hh Hc Hv) as (_ & _ & Hed & _).
  assert (Hp : _pendingStateFromBeforeInput (editor (run (editOnBeforeInput e1) w))
               = Some (nativelyRendered (nextState w c1))).
  { rewrite Hed. reflexivity. }
  assert (Hcur : currentState (run (editOnBeforeInput e1) w)
                 = nativelyRendered (nextState w c1)).
  { unfold currentState. rewrite (afterEntryFlush_some _ _ Hp). cbn.
    apply Hlaw. }
  split; [exact Hcur|]. split.
  - rewrite trace_effects, entry_flush_trace, Hp, <- app_assoc. reflexivity.
  - intros c2. unfold nextState. rewrite Hcur. reflexivity.
Qed.

(** The handler and the callback keep every pending state scheduled, when
    [editor.update] leaves [_pendingStateFromBeforeInput] alone. *)
Lemma step_keeps_scheduled w st :
  (forall ed s,
     _pendingStateFromBeforeInput (update ed s) = _pendingStateFromBeforeInput ed) ->
  pendingScheduled w -> pendingScheduled (step w st).
Proof.
  intros Hlaw Hinv. destruct st as [e|]; cbn [step].
  - destruct (run_pending_cases e w Hlaw) as [[Hp _] | (chars & _ & _ & Himm)].
    + intros [p Hsome]. rewrite Hp in Hsome. discriminate.
    + intros _. rewrite Himm, elem_of_app. right. in_trace.
  - destruct (immediates w) as [|cb rest] eqn:Hq.
    + exact Hinv.
    + destruct cb. unfold run, runCallback, function.
      rewrite applyPendingState_normal. cbn [snd].
      intros [p Hp]. rewrite afterEntryFlush_pending in Hp. discriminate.
Qed.

Lemma steps_keep_scheduled sts w :
  (forall ed s,
     _pendingStateFromBeforeInput (update ed s) = _pendingStateFromBeforeInput ed) ->
  pendingScheduled w -> pendingScheduled (steps w sts).
Proof.
  intros Hlaw. revert w. induction sts as [|st sts IH]; intros w Hinv.
  - exact Hinv.
  - cbn. apply IH, step_keeps_scheduled; assumption.
Qed.

(** X8. Through any sequence of events and callback runs, starting from a
    world where a pending state (if any) has its callback queued, and with
    an [editor.update] that leaves [_pendingStateFromBeforeInput] alone: a
    state that is pending is never stranded.  The next callback run hands
    exactly that state to [editor.update] and nothing is pending after it. *)
Theorem pending_state_applied_by_next_callback sts w pending :
  (forall ed s,
     _pendingStateFromBeforeInput (update ed s) = _pendingStateFromBeforeInput ed) ->
  pendingScheduled w ->
  _pendingStateFromBeforeInput (editor (steps w sts)) = Some pending ->
  trace (step (steps w sts) Immediate) = trace (steps w sts) ++ [Update pending]
  /\ _pendingStateFromBeforeInput (editor (step (steps w sts) Immediate)) = None.
Proof.
  intros Hlaw Hinv Hp.
  pose proof (steps_keep_scheduled sts w Hlaw Hinv) as Hsched.
  assert (Hin : ApplyPendingState ∈ immediates (steps w sts)).
  { apply Hsched. rewrite Hp. eexists. reflexivity. }
  cbn [step]. destruct (immediates (steps w sts)) as [|cb rest].
  { apply elem_of_nil in Hin. contradiction. }
  destruct cb. unfold run, runCallback, function.
  rewrite applyPendingState_normal. cbn [snd].
  assert (Hp' : _pendingStateFromBeforeInput (editor (dequeue (steps w sts)))
                = Some pending) by exact Hp.
  rewrite (afterEntryFlush_some _ _ Hp'). split; reflexivity.
Qed.

End Properties.

(** * The theorems at concrete events *)

Import Examples.

(** An event without data, while an earlier insertion is pending. *)
Lemma no_data_returns_after_flush_witness :
  (data noData = None \/ data noData = Some "")
  /\ editOnBeforeInput (DM := chrome) (EM := chromeEditor) noData typingPending
     = (Normal tt, afterEntryFlush (EM := chromeEditor) typingPending)
  /\ effects (EM := chromeEditor) noData typingPending = []
  /\ (_pendingStateFromBeforeInput (editor typingPending) = None ->
      run (editOnBeforeInput (EM := chromeEditor) noData) typingPending
      = typingPending).
Proof.
  split; [left; reflexivity|].
  apply (no_data_returns_after_flush (EM := chromeEditor) noData typingPending).
  left. reflexivity.
Defined.

(** Typing "x" where the prop handles every event. *)
Lemma handled_by_prop_only_prevents_witness :
  (data (Toy.input "x") = Some "x" /\ "x" <> ""
   /\ handleBeforeInput (props (flushedEditor (EM := chromeEditor) handling))
      = Some (fun _ _ => "handled")
   /\ isEventHandled (DraftModel := chrome) "handled" = true)
  /\ effects (EM := chromeEditor) (Toy.input "x") handling
     = [CallHandleBeforeInput "x" (currentState (EM := chromeEditor) handling);
        PreventDefault]
  /\ editor (run (editOnBeforeInput (EM := chromeEditor) (Toy.input "x")) handling)
     = flushedEditor (EM := chromeEditor) handling.
Proof.
  assert (H1 : data (Toy.input "x") = Some "x") by reflexivity.
  assert (H2 : "x" <> "") by discriminate.
  assert (H3 : handleBeforeInput
                 (props (flushedEditor (EM := chromeEditor) handling))
               = Some (fun _ _ => "handled")) by reflexivity.
  assert (H4 : isEventHandled (DraftModel := chrome) "handled" = true)
    by reflexivity.
  split; [auto|].
  destruct (handled_by_prop_only_prevents (EM := chromeEditor)
              (Toy.input "x") handling "x" (fun _ _ => "handled") H1 H2 H3 H4)
    as (_ & Heff & _ & _ & _ & Hed & _).
  split; [exact Heff | exact Hed].
Defined.

(** Typing "xyz" over the selected "ell". *)
Lemma not_collapsed_rerenders_witness :
  (data (Toy.input "xyz") = Some "xyz" /\ "xyz" <> ""
   /\ handled (EM := chromeEditor) selecting "xyz" = false
   /\ isCollapsed (getSelection (currentState (EM := chromeEditor) selecting))
      = false)
  /\ callsPreventDefault (effects (EM := chromeEditor) (Toy.input "xyz") selecting)
  /\ ~ allowsNativeInsertion
         (effects (EM := chromeEditor) (Toy.input "xyz") selecting).
Proof.
  assert (H1 : data (Toy.input "xyz") = Some "xyz") by reflexivity.
  assert (H2 : "xyz" <> "") by discriminate.
  assert (H3 : handled (EM := chromeEditor) selecting "xyz" = false)
    by reflexivity.
  assert (H4 : isCollapsed
                 (getSelection (currentState (EM := chromeEditor) selecting))
               = false) by reflexivity.
  split; [auto|].
  destruct (not_collapsed_rerenders (EM := chromeEditor)
              (Toy.input "xyz") selecting "xyz" H1 H2 H3 H4)
    as (_ & Hpd & _ & Hnat & _).
  split; assumption.
Defined.


(** Typing "xyz" over the selected "ell": the replacement is rendered. *)
Lemma interception_updates_with_replacement_witness :
  (data (Toy.input "xyz") = Some "xyz" /\ "xyz" <> ""
   /\ handled (EM := chromeEditor) selecting "xyz" = false
   /\ isCollapsed (getSelection (currentState (EM := chromeEditor) selecting))
      = false
   /\ "xyz" <> selectedChars (currentState (EM := chromeEditor) selecting))
  /\ @Update chrome
       (Toy.push (Toy.state "hello" (Toy.range "a" 1 4))
               {| Toy.blocks := [("a", "hxyzo")];
                  Toy.selectionAfter := Toy.caret "a" 4 |}
               "insert-characters")
     ∈ effects (EM := chromeEditor) (Toy.input "xyz") selecting.
Proof.
  assert (H1 : data (Toy.input "xyz") = Some "xyz") by reflexivity.
  assert (H2 : "xyz" <> "") by discriminate.
  assert (H3 : handled (EM := chromeEditor) selecting "xyz" = false)
    by reflexivity.
  assert (H4 : isCollapsed
                 (getSelection (currentState (EM := chromeEditor) selecting))
               = false) by reflexivity.
  assert (H5 : "xyz" <> selectedChars (currentState (EM := chromeEditor) selecting))
    by (vm_compute; discriminate).
  split; [auto 6|].
  destruct (interception_updates_with_replacement (EM := chromeEditor)
              (Toy.input "xyz") selecting "xyz" H1 H2 H3 (or_intror (conj H4 H5)))
    as (_ & Hup & _).
  apply Hup. reflexivity.
Defined.

(** Typing "#" after "he" splits the block into two leaves: prevented. *)
Lemma fingerprint_gate_witness :
  (data (Toy.input "#") = Some "#" /\ "#" <> ""
   /\ handled (EM := chromeEditor) typing "#" = false
   /\ isCollapsed (getSelection (currentState (EM := chromeEditor) typing)) = true
   /\ ~ atLeafStart (flushedEditor (EM := chromeEditor) typing)
   /\ ~ tabInSpanNode (nativeSelection typing)
   /\ fingerprintChanged (currentState (EM := chromeEditor) typing)
        (nextState (EM := chromeEditor) typing "#")
        (anchorBlock (EM := chromeEditor) typing))
  /\ callsPreventDefault (effects (EM := chromeEditor) (Toy.input "#") typing).
Proof.
  assert (H1 : data (Toy.input "#") = Some "#") by reflexivity.
  assert (H2 : "#" <> "") by discriminate.
  assert (H3 : handled (EM := chromeEditor) typing "#" = false) by reflexivity.
  assert (H4 : isCollapsed
                 (getSelection (currentState (EM := chromeEditor) typing))
               = true) by reflexivity.
  assert (H5 : ~ atLeafStart (flushedEditor (EM := chromeEditor) typing))
    by (intros H; vm_compute in H; discriminate).
  assert (H6 : ~ tabInSpanNode (nativeSelection typing))
    by (intros H; apply tabInSpan_spec in H; vm_compute in H; discriminate).
  assert (H7 : fingerprintChanged (currentState (EM := chromeEditor) typing)
                 (nextState (EM := chromeEditor) typing "#")
                 (anchorBlock (EM := chromeEditor) typing))
    by (intros H; vm_compute in H; discriminate).
  split; [auto 8|].
  destruct (fingerprint_gate (EM := chromeEditor)
              (Toy.input "#") typing "#" H1 H2 H3 H4 H5 H6) as [Hchanged _].
  apply Hchanged, H7.
Defined.

(** Typing ['] after "he": prevented on Firefox, native on Chrome. *)
Lemma firefox_quickfind_prevented_witness :
  ((UserAgent_isBrowser (DraftModel := firefox) "Firefox" = true
    /\ ("'" = "'" \/ "'" = "/")
    /\ data (Toy.input "'") = Some "'"
    /\ isCollapsed
         (getSelection (currentState (EM := firefoxEditor) typingFirefox)) = true)
   /\ callsPreventDefault
        (effects (EM := firefoxEditor) (Toy.input "'") typingFirefox)
   /\ immediates
        (run (editOnBeforeInput (EM := firefoxEditor) (Toy.input "'"))
           typingFirefox)
      = [])
  /\ (UserAgent_isBrowser (DraftModel := chrome) "Firefox" = false
      /\ mustPreventDefaultForCharacter (DM := chrome) "'" = false
      /\ allowsNativeInsertion
           (effects (EM := chromeEditor) (Toy.input "'") typing)).
Proof.
  split.
  - assert (H1 : UserAgent_isBrowser (DraftModel := firefox) "Firefox" = true)
      by reflexivity.
    assert (H2 : "'" = "'" \/ "'" = "/") by (left; reflexivity).
    assert (H3 : data (Toy.input "'") = Some "'") by reflexivity.
    assert (H4 : isCollapsed
                   (getSelection
                      (currentState (EM := firefoxEditor) typingFirefox))
                 = true) by reflexivity.
    split; [auto|].
    destruct (firefox_quickfind_prevented (EM := firefoxEditor)
                (Toy.input "'") typingFirefox "'") as (_ & Hprev & _).
    destruct (Hprev H1 H2 H3 H4) as (_ & Hpd & _ & Himm).
    split; [exact Hpd | exact Himm].
  - assert (H0 : UserAgent_isBrowser (DraftModel := chrome) "Firefox" = false)
      by reflexivity.
    destruct (firefox_quickfind_prevented (EM := chromeEditor)
                (Toy.input "'") typing "'") as (_ & _ & Hother).
    destruct (Hother H0) as [Hfalse Hnative].
    split; [exact H0|]. split; [exact Hfalse|].
    apply (Hnative
             (Toy.directionMap (currentState (EM := chromeEditor) typing))
             (Toy.directionMap (nextState (EM := chromeEditor) typing "'")));
      try reflexivity.
    + discriminate.
    + intros H. vm_compute in H. discriminate.
    + intros H. apply tabInSpan_spec in H. vm_compute in H. discriminate.
    + intros H. apply H. vm_compute. reflexivity.
    + intros H. apply H. vm_compute. reflexivity.
Defined.

(** Typing "x" after "he": the new state waits for the callback. *)
Lemma native_path_defers_update_witness :
  (data (Toy.input "x") = Some "x" /\ "x" <> ""
   /\ outcome (editOnBeforeInput (EM := chromeEditor) (Toy.input "x")) typing
      = Normal tt
   /\ ~ callsPreventDefault (effects (EM := chromeEditor) (Toy.input "x") typing))
  /\ ~ updatesEditor (effects (EM := chromeEditor) (Toy.input "x") typing)
  /\ immediates (run (editOnBeforeInput (EM := chromeEditor) (Toy.input "x")) typing)
     = [ApplyPendingState].
Proof.
  assert (H1 : data (Toy.input "x") = Some "x") by reflexivity.
  assert (H2 : "x" <> "") by discriminate.
  assert (H3 : outcome (editOnBeforeInput (EM := chromeEditor) (Toy.input "x"))
                 typing = Normal tt) by reflexivity.
  assert (H4 : ~ callsPreventDefault
                   (effects (EM := chromeEditor) (Toy.input "x") typing)).
  { intros H. vm_compute in H.
    repeat (apply elem_of_cons in H as [H|H]; [discriminate H|]).
    apply elem_of_nil in H. exact H. }
  split; [auto|].
  destruct (native_path_defers_update (EM := chromeEditor)
              (Toy.input "x") typing "x" H1 H2 H3 H4) as (Hup & _ & Himm & _).
  split; [exact Hup | exact Himm].
Defined.

(** C7, as the specification lists the checks: direction before the Firefox
    characters.  Typing "x" after "he" evaluates all six checks, the Firefox
    one (line 203) before the direction one (line 206). *)
Lemma heuristics_do_not_follow_spec_order :
  evaluated (effects (EM := chromeEditor) (Toy.input "x") typing)
  = [(SelectionCollapsed, false); (LeafStart, false); (TabInSpan, false);
     (FingerprintChanged, false); (FirefoxQuickfind, false);
     (DirectionChanged, false)]
  /\ ~ evaluatedInOrder specOrder
         (evaluated (effects (EM := chromeEditor) (Toy.input "x") typing)).
Proof.
  split; [reflexivity|].
  intros [Horder _]. vm_compute in Horder. discriminate Horder.
Defined.

(** ** Further runs *)

(** A pending state is applied first, whatever the event. *)
Example pending_state_flushed_first :
  trace (run (editOnBeforeInput (EM := chromeEditor) noData) typingPending)
  = [@Update chrome (Toy.state "hello" (Toy.caret "a" 2))]
  /\ _pendingStateFromBeforeInput
       (editor (run (editOnBeforeInput (EM := chromeEditor) noData) typingPending))
     = None.
Proof. split; reflexivity. Qed.

(** A tab in the first text node of the SPAN stops the gate at the third
    check. *)
Example tab_in_span_prevents :
  evaluated
    (effects (EM := chromeEditor) (Toy.input "x")
       (Toy.world false None (Toy.state "hello" (Toy.caret "a" 2)) None
          (Toy.caretInSpan (TAB +:+ "hello"))))
  = [(SelectionCollapsed, false); (LeafStart, false); (TabInSpan, true)].
Proof. reflexivity. Qed.

(** On Firefox ['] stops the gate before the direction maps are read. *)
Example firefox_quote_stops_before_direction :
  evaluated (effects (EM := firefoxEditor) (Toy.input "'") typingFirefox)
  = [(SelectionCollapsed, false); (LeafStart, false); (TabInSpan, false);
     (FingerprintChanged, false); (FirefoxQuickfind, true)].
Proof. reflexivity. Qed.

(** Typing "@" at the start of an empty block turns it right-to-left: the
    last check prevents native insertion. *)
Example direction_change_prevents :
  evaluated
    (effects (EM := chromeEditor) (Toy.input "@")
       (@Build_World chrome
          (@Build_DraftEditor chrome None
             (Toy.state "" (Toy.caret "a" 0))
             (Toy.state "x" (Toy.caret "a" 1))
             (@Build_Props chrome None))
          (Toy.caretInSpan "") [] []))
  = [(SelectionCollapsed, false); (LeafStart, false); (TabInSpan, false);
     (FingerprintChanged, false); (FirefoxQuickfind, false);
     (DirectionChanged, true)].
Proof. reflexivity. Qed.

(** ** The further properties at concrete events *)

(** Typing "x" after "he": the new state is pending and one callback is
    queued. *)
Lemma pending_state_iff_callback_queued_witness :
  (forall (ed : @DraftEditor chrome) s,
     _pendingStateFromBeforeInput (update (DraftEditorMethods := chromeEditor) ed s)
     = _pendingStateFromBeforeInput ed)
  /\ _pendingStateFromBeforeInput
       (editor (run (editOnBeforeInput (EM := chromeEditor) (Toy.input "x")) typing))
     <> None
  /\ immediates (run (editOnBeforeInput (EM := chromeEditor) (Toy.input "x")) typing)
     = [ApplyPendingState].
Proof.
  assert (H0 : forall (ed : @DraftEditor chrome) s,
             _pendingStateFromBeforeInput
               (update (DraftEditorMethods := chromeEditor) ed s)
             = _pendingStateFromBeforeInput ed) by (intros ed s; reflexivity).
  split; [exact H0|].
  destruct (pending_state_iff_callback_queued (EM := chromeEditor)
              (Toy.input "x") typing H0)
    as [[Hp Himm] | (chars & _ & Hp & Himm)].
  - exfalso. vm_compute in Hp. discriminate Hp.
  - split; [rewrite Hp; discriminate | exact Himm].
Defined.

(** Typing "x" after "he" when the direction maps are missing. *)
Lemma throw_leaves_insertion_to_browser_witness :
  outcome (editOnBeforeInput (EM := unmappedEditor) (Toy.input "x")) typingUnmapped
  <> Normal tt
  /\ allowsNativeInsertion
       (effects (EM := unmappedEditor) (Toy.input "x") typingUnmapped)
  /\ _pendingStateFromBeforeInput
       (editor (run (editOnBeforeInput (EM := unmappedEditor) (Toy.input "x"))
                  typingUnmapped)) = None
  /\ immediates (run (editOnBeforeInput (EM := unmappedEditor) (Toy.input "x"))
                   typingUnmapped) = [].
Proof.
  assert (H1 : outcome (editOnBeforeInput (EM := unmappedEditor) (Toy.input "x"))
                 typingUnmapped <> Normal tt)
    by (vm_compute; discriminate).
  split; [exact H1|].
  destruct (throw_leaves_insertion_to_browser (EM := unmappedEditor)
              (Toy.input "x") typingUnmapped H1) as (Hnat & _ & Hp & Himm).
  split; [exact Hnat|]. split; [exact Hp | exact Himm].
Defined.

(** Typing "wxyz" over the three selected characters "ell". *)
Lemma longer_text_always_replaces_witness :
  (data (Toy.input "wxyz") = Some "wxyz" /\ "wxyz" <> ""
   /\ handled (EM := chromeEditor) selecting "wxyz" = false
   /\ isCollapsed (getSelection (currentState (EM := chromeEditor) selecting))
      = false
   /\ getEndOffset (getSelection (currentState (EM := chromeEditor) selecting))
        - getStartOffset (getSelection (currentState (EM := chromeEditor) selecting))
      < String.length "wxyz")
  /\ editor (run (editOnBeforeInput (EM := chromeEditor) (Toy.input "wxyz"))
               selecting)
     = update (DraftEditorMethods := chromeEditor)
         (flushedEditor (EM := chromeEditor) selecting)
         (insertedState (currentState (EM := chromeEditor) selecting) "wxyz").
Proof.
  assert (H1 : data (Toy.input "wxyz") = Some "wxyz") by reflexivity.
  assert (H2 : "wxyz" <> "") by discriminate.
  assert (H3 : handled (EM := chromeEditor) selecting "wxyz" = false)
    by reflexivity.
  assert (H4 : isCollapsed
                 (getSelection (currentState (EM := chromeEditor) selecting))
               = false) by reflexivity.
  assert (H5 : getEndOffset
                 (getSelection (currentState (EM := chromeEditor) selecting))
               - getStartOffset
                   (getSelection (currentState (EM := chromeEditor) selecting))
               < String.length "wxyz") by (vm_compute; lia).
  split; [auto 6|].
  apply (longer_text_always_replaces (EM := chromeEditor)
           (Toy.input "wxyz") selecting "wxyz" H1 H2 H3 H4 H5).
Defined.

(** Typing "x" and then "y" after "he". *)
Lemma consecutive_insertions_compose_witness :
  ((forall (ed : @DraftEditor chrome) s,
      _latestEditorState (update (DraftEditorMethods := chromeEditor) ed s) = s)
   /\ data (Toy.input "x") = Some "x" /\ "x" <> ""
   /\ outcome (editOnBeforeInput (EM := chromeEditor) (Toy.input "x")) typing
      = Normal tt
   /\ ~ callsPreventDefault (effects (EM := chromeEditor) (Toy.input "x") typing))
  /\ Toy.blocks
       (Toy.content
          (nextState (EM := chromeEditor)
             (run (editOnBeforeInput (EM := chromeEditor) (Toy.input "x")) typing)
             "y"))
     = [("a", "hexyllo")].
Proof.
  assert (H0 : forall (ed : @DraftEditor chrome) s,
             _latestEditorState (update (DraftEditorMethods := chromeEditor) ed s)
             = s) by (intros ed s; reflexivity).
  assert (H1 : data (Toy.input "x") = Some "x") by reflexivity.
  assert (H2 : "x" <> "") by discriminate.
  assert (H3 : outcome (editOnBeforeInput (EM := chromeEditor) (Toy.input "x"))
                 typing = Normal tt) by reflexivity.
  assert (H4 : ~ callsPreventDefault
                   (effects (EM := chromeEditor) (Toy.input "x") typing)).
  { apply (collapsed_native (EM := chromeEditor) (Toy.input "x") typing "x");
      [exact H1 | exact H2 | reflexivity | reflexivity | reflexivity]. }
  split; [auto 6|].
  destruct (consecutive_insertions_compose (EM := chromeEditor)
              (Toy.input "x") (Toy.input "y") typing "x" H0 H1 H2 H3 H4)
    as (_ & _ & Hnext).
  rewrite Hnext. reflexivity.
Defined.

(** After typing "x" after "he", the next callback applies the new state. *)
Lemma pending_state_applied_by_next_callback_witness :
  ((forall (ed : @DraftEditor chrome) s,
      _pendingStateFromBeforeInput (update (DraftEditorMethods := chromeEditor) ed s)
      = _pendingStateFromBeforeInput ed)
   /\ pendingScheduled typing
   /\ _pendingStateFromBeforeInput
        (editor (steps (EM := chromeEditor) typing [Input (Toy.input "x")]))
      = Some (nativelyRendered (nextState (EM := chromeEditor) typing "x")))
  /\ _pendingStateFromBeforeInput
       (editor (step (EM := chromeEditor)
                  (steps (EM := chromeEditor) typing [Input (Toy.input "x")])
                  Immediate)) = None.
Proof.
  assert (H0 : forall (ed : @DraftEditor chrome) s,
             _pendingStateFromBeforeInput
               (update (DraftEditorMethods := chromeEditor) ed s)
             = _pendingStateFromBeforeInput ed) by (intros ed s; reflexivity).
  assert (H1 : pendingScheduled typing).
  { intros [p Hp]. vm_compute in Hp. discriminate Hp. }
  assert (H2 : _pendingStateFromBeforeInput
                 (editor (steps (EM := chromeEditor) typing
                            [Input (Toy.input "x")]))
               = Some (nativelyRendered
                         (nextState (EM := chromeEditor) typing "x")))
    by reflexivity.
  split; [auto|].
  apply (pending_state_applied_by_next_callback (EM := chromeEditor)
           [Input (Toy.input "x")] typing _ H0 H1 H2).
Defined.

(** Without direction maps, typing "x" after "he" runs the first four checks
    and throws at the fifth. *)
Example missing_direction_map_throws :
  outcome (editOnBeforeInput (EM := unmappedEditor) (Toy.input "x")) typingUnmapped
  = Thrown "Got unexpected null or undefined"
  /\ evaluated (effects (EM := unmappedEditor) (Toy.input "x") typingUnmapped)
     = [(SelectionCollapsed, false); (LeafStart, false); (TabInSpan, false);
        (FingerprintChanged, false); (FirefoxQuickfind, false)].
Proof. split; reflexivity. Qed.

(** ** Selections outside the first block *)

(** C3, on a selection in the second block.  The document is "hello" and
    "world", "orl" is selected in the second block and "ell" is typed.  The
    selected text differs from the typed characters, yet the handler takes
    the slice of the plain text of the whole document at the offsets of the
    selection, which count from the start of the second block, finds "ell"
    and only moves the selection: the one state it passes to
    [editor.update] is the forced selection, not the replacement, and the
    second block is still "world". *)
Theorem selected_text_read_from_wrong_block :
  Toy.selectedText (twoBlocks (Toy.range "b" 1 4)) = "orl"
  /\ selectedChars (DM := chrome) (twoBlocks (Toy.range "b" 1 4)) = "ell"
  /\ effects (EM := chromeEditor) (Toy.input "ell") selectingSecondBlock
     = [Evaluated SelectionCollapsed true; PreventDefault;
        @Update chrome
          (Toy.forceSelection (twoBlocks (Toy.range "b" 1 4)) (Toy.caret "b" 4))]
  /\ Toy.blocks
       (Toy.content
          (Toy.forceSelection (twoBlocks (Toy.range "b" 1 4)) (Toy.caret "b" 4)))
     = [("a", "hello"); ("b", "world")]
  /\ Toy.blocks
       (Toy.content
          (insertedState (DM := chrome) (twoBlocks (Toy.range "b" 1 4)) "ell"))
     = [("a", "hello"); ("b", "welld")].
Proof. repeat split; reflexivity. Qed.

(** C9, on a selection across two blocks.  The document is "hello" and
    "world", the selection runs from offset 1 of the first block to offset 2
    of the second, and "e" is typed, which is the slice of the plain text
    between the two offsets.  The handler merges the two offsets only
    (lines 131-134) and keeps the keys: the selection it forces has its
    anchor in the first block and its focus in the second, and is not
    collapsed. *)
Theorem merged_offsets_leave_selection_open :
  isCollapsed (DraftModel := chrome) acrossBlocks = false
  /\ "e" = selectedChars (DM := chrome) (twoBlocks acrossBlocks)
  /\ effects (EM := chromeEditor) (Toy.input "e") selectingAcrossBlocks
     = [Evaluated SelectionCollapsed true; PreventDefault;
        @Update chrome
          (Toy.forceSelection (twoBlocks acrossBlocks)
             {| Toy.anchorKey := "a"; Toy.anchorOffset := 2;
                Toy.focusKey := "b"; Toy.focusOffset := 2;
                Toy.isBackward := false |})]
  /\ isCollapsed (DraftModel := chrome)
       {| Toy.anchorKey := "a"; Toy.anchorOffset := 2;
          Toy.focusKey := "b"; Toy.focusOffset := 2;
          Toy.isBackward := false |} = false.
Proof. repeat split; reflexivity. Qed.
